(** * Spaced-repetition scheduler: the [SRS] class of [spaced_repetition.py]

    The development embeds the scheduling core of the script
    ([_make_entry], [add_solved], [record_review], [get_due],
    [study_plan_summary]) and proves properties of it.

    Python values are represented as follows.
    - [int] is [Z] (unbounded).
    - [float] is the primitive binary64 type of Rocq; [+], [-], [*], [/] and
      the comparisons are the IEEE 754 operations, as in CPython.
    - [datetime.date] is the proleptic Gregorian ordinal ([date.toordinal]),
      between [1] (0001-01-01) and [3652059] (9999-12-31).  The script stores
      dates as ISO strings ([iso]) and reads them back ([parse_iso]); the two
      are inverse on dates, so a stored date is identified with its ordinal
      and [None] with [None].
    - an exception is a value of [exn]; a computation that may raise returns
      a [result].
    - [self.db["problems"]] is an association list in insertion order (the
      order [dict.values()] iterates in).
    Printing and persistence ([print], [_persist]) are left out: they do not
    change the collection.

    Two assumptions recur in the statements.  [clock_ok today]: the clock
    shows a date of the calendar, thirty days or more before its last day,
    so that the dates the script derives from today exist.  [db_ok db]: the
    entries satisfy the invariants of the data model (ease factor at least
    1.3, positive interval, repetitions not negative); every call keeps
    them ([exec_db_ok]). *)

From Stdlib Require Import ZArith Lia List Bool String Floats Permutation Sorted.
Import ListNotations.
Set Warnings "-inexact-float".

Local Open Scope Z_scope.

(** ** Exceptions and results *)

Inductive exn : Type :=
| KeyError
| ValueError
| OverflowError.

Inductive result (A : Type) : Type :=
| Ok (a : A)
| Raise (x : exn).

Arguments Ok {A} a.
Arguments Raise {A} x.

Definition rbind {A B : Type} (r : result A) (k : A -> result B) : result B :=
  match r with
  | Ok a => k a
  | Raise x => Raise x
  end.

(** ** Python numbers *)

Module Py.

(** The double nearest to the integer [n] (ties to even); an infinity when
    [n] is beyond the range of doubles. *)
Definition Z2SF (n : Z) : spec_float := binary_normalize prec emax n 0 false.

(** Conversion of an [int] operand in mixed [int]/[float] arithmetic:
    [OverflowError: int too large to convert to float] when the nearest
    double would be infinite. *)
Definition float_of_int (n : Z) : result float :=
  match Z2SF n with
  | S754_infinity _ => Raise OverflowError
  | s => Ok (SF2Prim s)
  end.

(** [max(a, b)] on two floats: [b] replaces [a] only when [b > a]. *)
Definition max (a b : float) : float :=
  if (a <? b)%float then b else a.

(** The integer nearest to [a / b] for [0 < b], ties going to the even
    neighbour. *)
Definition div_half_even (a b : Z) : Z :=
  let q := a / b in
  match 2 * (a mod b) ?= b with
  | Lt => q
  | Gt => q + 1
  | Eq => if Z.even q then q else q + 1
  end.

(** [round(x)] with one argument: the nearest integer, ties to even;
    [ValueError] on a NaN, [OverflowError] on an infinity. *)
Definition round (x : float) : result Z :=
  match Prim2SF x with
  | S754_nan => Raise ValueError
  | S754_infinity _ => Raise OverflowError
  | S754_zero _ => Ok 0
  | S754_finite s m e =>
      let n := if 0 <=? e then Z.pos m * 2 ^ e
               else div_half_even (Z.pos m) (2 ^ (- e)) in
      Ok (if s then - n else n)
  end.

(** [round(x, 3)]: CPython rounds the exact value of [x] to three decimals
    (ties to even) and returns the double nearest to that decimal.  A double
    [m * 2^e] with [-9 <= e] is at least [2^43]; it is a power of two, hence
    an integer, or its neighbours are [2^-9] or more away, more than twice
    the [0.0005] by which the decimal rounding moves it: the double nearest
    to the decimal is [x] itself.  Below that the scaled integer [n] is less
    than [2^53], so it is a double, and the IEEE division [n / 1000.0] is
    the double nearest to the decimal.  Zeros, infinities and NaN round to
    themselves. *)
Definition round3 (x : float) : float :=
  match Prim2SF x with
  | S754_finite s m e =>
      if -10 <? e then x
      else
        let n := div_half_even (Z.pos m * 1000) (2 ^ (- e)) in
        let r := (SF2Prim (Z2SF n) / 1000)%float in
        if s then (- r)%float else r
  | _ => x
  end.

(** *** Dates *)

Definition MINORD : Z := 1.
Definition MAXORD : Z := 3652059.

(** [timedelta(days=n)]: [OverflowError] beyond a magnitude of 999999999. *)
Definition timedelta (days : Z) : result Z :=
  if Z.abs days <=? 999999999 then Ok days else Raise OverflowError.

(** [d + timedelta(days=n)]: [OverflowError: date value out of range]
    outside [MINORD .. MAXORD]. *)
Definition date_add (d : Z) (n : Z) : result Z :=
  rbind (timedelta n) (fun td =>
    if (MINORD <=? d + td) && (d + td <=? MAXORD) then Ok (d + td)
    else Raise OverflowError).

End Py.

(** ** The collection *)

(** One entry of [self.db["problems"]]: the eight keys that [_make_entry]
    and [_load_from_sheet] give every entry.  With every key present,
    [e.get(k, default)] is the stored value. *)
Record entry : Type := mkEntry {
  id : string;
  difficulty : Z;
  ef : float;
  reps : Z;
  interval : Z;
  last_review : option Z;
  next_review : option Z;
  notes : string
}.

Definition problems : Type := list (string * entry).

(** [probs[pid]] as an option. *)
Fixpoint lookup (pid : string) (db : problems) : option entry :=
  match db with
  | [] => None
  | (k, e) :: rest => if String.eqb pid k then Some e else lookup pid rest
  end.

(** [pid in probs] *)
Definition contains (pid : string) (db : problems) : bool :=
  match lookup pid db with
  | Some _ => true
  | None => false
  end.

(** [probs[pid] = e]: an existing key keeps its place, a new key goes
    last. *)
Fixpoint store (pid : string) (e : entry) (db : problems) : problems :=
  match db with
  | [] => [(pid, e)]
  | (k, old) :: rest =>
      if String.eqb pid k then (k, e) :: rest
      else (k, old) :: store pid e rest
  end.

(** [probs.values()] *)
Definition values (db : problems) : list entry := map snd db.

(** ** Methods that change the collection

    A method is a function from the collection to an outcome and the
    collection it leaves behind; an exception keeps the collection as it was
    when the exception was raised. *)

Definition M (A : Type) : Type := problems -> result A * problems.

Definition ret {A : Type} (a : A) : M A := fun db => (Ok a, db).

Definition raise {A : Type} (x : exn) : M A := fun db => (Raise x, db).

Definition bind {A B : Type} (m : M A) (k : A -> M B) : M B :=
  fun db =>
    match m db with
    | (Ok a, db') => k a db'
    | (Raise x, db') => (Raise x, db')
    end.

(** A computation that does not touch the collection. *)
Definition lift {A : Type} (r : result A) : M A := fun db => (r, db).

Definition get_db : M problems := fun db => (Ok db, db).

Definition getitem (pid : string) : M entry :=
  fun db =>
    match lookup pid db with
    | Some e => (Ok e, db)
    | None => (Raise KeyError, db)
    end.

Definition setitem (pid : string) (e : entry) : M unit :=
  fun db => (Ok tt, store pid e db).

Declare Scope srs_scope.
Delimit Scope srs_scope with srs.
Notation "x <- m ;; k" := (bind m (fun x => k))
  (at level 100, m at next level, right associativity) : srs_scope.
Notation "' p <- m ;; k" := (bind m (fun p => k))
  (at level 100, p pattern, m at next level, right associativity) : srs_scope.
Local Open Scope srs_scope.

Section Core.

(** The value of [today()] during one call. *)
Variable today : Z.

(** [SRS._make_entry] *)
Definition _make_entry (pid : string) (diff : Z) : result entry :=
  rbind (Py.float_of_int (diff - 3)) (fun d =>
  let ef := Py.max 1.3 (2.5 - 0.05 * d)%float in
  rbind (Py.date_add today 3) (fun nr =>
  Ok {| id := pid; difficulty := diff; ef := ef;
        reps := 0; interval := 3;
        last_review := None;
        next_review := Some nr;
        notes := EmptyString |})).

(** [notes or e.get("notes", default)], with the empty string as default *)
Definition notes_or (new old : string) : string :=
  match new with
  | EmptyString => old
  | _ => new
  end.

(** [SRS.add_solved] *)
Definition add_solved (pid : string) (diff : Z) (new_notes : string) : M unit :=
  probs <- get_db ;;
  if contains pid probs then
    e <- getitem pid ;;
    d <- lift (Py.float_of_int (diff - 3)) ;;
    nr <- lift (Py.date_add today 3) ;;
    setitem pid
      {| id := id e;
         difficulty := diff;
         notes := notes_or new_notes (notes e);
         ef := Py.round3 (Py.max 1.3 (ef e - 0.02 * d)%float);
         reps := 0;
         interval := 3;
         last_review := last_review e;
         next_review := Some nr |}
  else
    e <- lift (_make_entry pid diff) ;;
    setitem pid
      {| id := id e; difficulty := difficulty e; ef := ef e;
         reps := reps e; interval := interval e;
         last_review := last_review e; next_review := next_review e;
         notes := new_notes |}.

(** [SRS.record_review] *)
Definition record_review (pid : string) (q : Z) : M unit :=
  probs <- get_db ;;
  if negb (contains pid probs) then raise KeyError
  else if negb ((0 <=? q) && (q <=? 5)) then raise ValueError
  else
    e <- getitem pid ;;
    let prev_i := interval e in
    ' (reps', interval') <-
      (if q <? 3 then ret (0, 3)
       else
         let reps' := reps e + 1 in
         if reps' =? 1 then ret (reps', 10)
         else
           p <- lift (Py.float_of_int prev_i) ;;
           r <- lift (Py.round (p * ef e)) ;;
           ret (reps', Z.max 1 r)) ;;
    d <- lift (Py.float_of_int (5 - q)) ;;
    let ef_new := Py.max 1.3 (ef e + (0.1 - d * (0.08 + d * 0.02)))%float in
    nr <- lift (Py.date_add today interval') ;;
    setitem pid
      {| id := id e;
         difficulty := difficulty e;
         notes := notes e;
         ef := Py.round3 ef_new;
         reps := reps';
         interval := interval';
         last_review := Some today;
         next_review := Some nr |}.

End Core.

(** ** Queries *)

(** The filter of [get_due]:
    [not p.get("next_review") or parse_iso(p["next_review"]) <= d] *)
Definition is_due (d : Z) (p : entry) : bool :=
  match next_review p with
  | None => true
  | Some nr => nr <=? d
  end.

(** The sort key of [get_due]:
    [(parse_iso(x["next_review"]) or today(), -x["difficulty"])] *)
Definition due_key (d : Z) (x : entry) : Z * Z :=
  (match next_review x with Some nr => nr | None => d end, - difficulty x).

(** [a < b] on two-element tuples of integers. *)
Definition tuple_ltb (a b : Z * Z) : bool :=
  (fst a <? fst b) || ((fst a =? fst b) && (snd a <? snd b)).

(** [list.sort(key=...)] is a stable sort; on keys that are totally ordered
    its result is the one of a stable insertion sort. *)
Fixpoint insert_by {A : Type} (key : A -> Z * Z) (x : A) (l : list A) : list A :=
  match l with
  | [] => [x]
  | y :: rest =>
      if tuple_ltb (key y) (key x) then y :: insert_by key x rest
      else x :: l
  end.

Definition sort_by {A : Type} (key : A -> Z * Z) (l : list A) : list A :=
  fold_right (insert_by key) [] l.

(** [SRS.get_due], with [d] the value of [today()] *)
Definition get_due (d : Z) (db : problems) : list entry :=
  sort_by (due_key d) (filter (is_due d) (values db)).

(** The dictionary [counts] of [study_plan_summary]. *)
Record counts : Type := mkCounts {
  overdue : Z;
  due_today : Z;
  due_tomorrow : Z;
  next_7_days : Z;
  next_30_days : Z;
  total : Z
}.

(** One turn of the loop of [study_plan_summary]. *)
Definition tally (d0 d1 d7 d30 : Z) (c : counts) (p : entry) : counts :=
  let c := {| overdue := overdue c; due_today := due_today c;
              due_tomorrow := due_tomorrow c; next_7_days := next_7_days c;
              next_30_days := next_30_days c; total := total c + 1 |} in
  match next_review p with
  | None =>
      {| overdue := overdue c; due_today := due_today c + 1;
         due_tomorrow := due_tomorrow c; next_7_days := next_7_days c;
         next_30_days := next_30_days c; total := total c |}
  | Some nr =>
      if nr <? d0 then
        {| overdue := overdue c + 1; due_today := due_today c + 1;
           due_tomorrow := due_tomorrow c; next_7_days := next_7_days c;
           next_30_days := next_30_days c; total := total c |}
      else if nr =? d0 then
        {| overdue := overdue c; due_today := due_today c + 1;
           due_tomorrow := due_tomorrow c; next_7_days := next_7_days c;
           next_30_days := next_30_days c; total := total c |}
      else if nr =? d1 then
        {| overdue := overdue c; due_today := due_today c;
           due_tomorrow := due_tomorrow c + 1; next_7_days := next_7_days c;
           next_30_days := next_30_days c; total := total c |}
      else if (d1 <? nr) && (nr <=? d7) then
        {| overdue := overdue c; due_today := due_today c;
           due_tomorrow := due_tomorrow c; next_7_days := next_7_days c + 1;
           next_30_days := next_30_days c; total := total c |}
      else if (d7 <? nr) && (nr <=? d30) then
        {| overdue := overdue c; due_today := due_today c;
           due_tomorrow := due_tomorrow c; next_7_days := next_7_days c;
           next_30_days := next_30_days c + 1; total := total c |}
      else c
  end.

(** [SRS.study_plan_summary], with [d0] the value of [today()] *)
Definition study_plan_summary (d0 : Z) (db : problems) : result counts :=
  rbind (Py.date_add d0 1) (fun d1 =>
  rbind (Py.date_add d0 7) (fun d7 =>
  rbind (Py.date_add d0 30) (fun d30 =>
  Ok (fold_left (tally d0 d1 d7 d30) (values db)
        {| overdue := 0; due_today := 0; due_tomorrow := 0;
           next_7_days := 0; next_30_days := 0; total := 0 |})))).

(** ** Sessions

    The command line makes one call per run of the script, each on its own
    day; a call that raises ends the run and leaves the collection as it
    was. *)

Inductive call : Type :=
| Add (pid : string) (diff : Z) (new_notes : string)
| Review (pid : string) (q : Z).

Definition call_pid (c : call) : string :=
  match c with
  | Add pid _ _ => pid
  | Review pid _ => pid
  end.

Definition exec (day : Z) (c : call) : M unit :=
  match c with
  | Add pid diff n => add_solved day pid diff n
  | Review pid q => record_review day pid q
  end.

Fixpoint run (calls : list (Z * call)) (db : problems) : problems :=
  match calls with
  | [] => db
  | (day, c) :: rest => run rest (snd (exec day c db))
  end.

(** The day and the call of the last call in [calls] that completed on
    [pid], with [seen] the answer before [calls]. *)
Fixpoint last_done (pid : string) (calls : list (Z * call)) (db : problems)
    (seen : option (Z * call)) : option (Z * call) :=
  match calls with
  | [] => seen
  | (day, c) :: rest =>
      match exec day c db with
      | (Ok _, db') =>
          last_done pid rest db'
            (if String.eqb pid (call_pid c) then Some (day, c) else seen)
      | (Raise _, db') => last_done pid rest db' seen
      end
  end.

(** ** The data model

    The invariants the data model gives a stored entry: an ease factor of at
    least 1.3, a positive interval, a repetition count that is not
    negative. *)

Definition entry_ok (e : entry) : Prop :=
  (1.3 <=? ef e)%float = true /\ 1 <= interval e /\ 0 <= reps e.

Definition db_ok (db : problems) : Prop :=
  forall pid e, lookup pid db = Some e -> entry_ok e.

(** The clock shows a date of the calendar, thirty days or more before its
    last day. *)
Definition clock_ok (today : Z) : Prop :=
  Py.MINORD <= today /\ today + 30 <= Py.MAXORD.

(** ** What a call stores

    The entry that [record_review] and [add_solved] write, as a function of
    the entry they read.  The methods above are the model of the script;
    these functions are their pure part, used to state and prove the
    properties below. *)

Definition next_schedule (e : entry) (q : Z) : result (Z * Z) :=
  if q <? 3 then Ok (0, 3)
  else
    let reps' := reps e + 1 in
    if reps' =? 1 then Ok (reps', 10)
    else
      rbind (Py.float_of_int (interval e)) (fun p =>
      rbind (Py.round (p * ef e)) (fun r =>
      Ok (reps', Z.max 1 r))).

Definition reviewed (today : Z) (e : entry) (q : Z) : result entry :=
  rbind (next_schedule e q) (fun ri =>
  rbind (Py.float_of_int (5 - q)) (fun d =>
  rbind (Py.date_add today (snd ri)) (fun nr =>
  Ok {| id := id e;
        difficulty := difficulty e;
        notes := notes e;
        ef := Py.round3 (Py.max 1.3 (ef e + (0.1 - d * (0.08 + d * 0.02)))%float);
        reps := fst ri;
        interval := snd ri;
        last_review := Some today;
        next_review := Some nr |}))).

Definition reset (today : Z) (e : entry) (diff : Z) (new_notes : string)
    : result entry :=
  rbind (Py.float_of_int (diff - 3)) (fun d =>
  rbind (Py.date_add today 3) (fun nr =>
  Ok {| id := id e;
        difficulty := diff;
        notes := notes_or new_notes (notes e);
        ef := Py.round3 (Py.max 1.3 (ef e - 0.02 * d)%float);
        reps := 0;
        interval := 3;
        last_review := last_review e;
        next_review := Some nr |})).

Definition created (today : Z) (pid : string) (diff : Z) (new_notes : string)
    : result entry :=
  rbind (Py.float_of_int (diff - 3)) (fun d =>
  rbind (Py.date_add today 3) (fun nr =>
  Ok {| id := pid;
        difficulty := diff;
        ef := Py.max 1.3 (2.5 - 0.05 * d)%float;
        reps := 0;
        interval := 3;
        last_review := None;
        next_review := Some nr;
        notes := new_notes |})).

(** ** The orders and buckets the queries are specified with *)

(** The date an entry counts as due on: its [next_review], and the
    reference date [d] when it has none. *)
Definition review_date (d : Z) (p : entry) : Z :=
  match next_review p with
  | Some nr => nr
  | None => d
  end.

(** [a] comes no later than [b] in the due list: an earlier review date (a
    missing one counting as [d]) or the same date and a difficulty at least
    as high. *)
Definition due_order (d : Z) (a b : entry) : Prop :=
  review_date d a < review_date d b \/
  (review_date d a = review_date d b /\ difficulty b <= difficulty a).

(** [a] does not come after [b]: the key of [b] is not below the one of
    [a]. *)
Definition key_le {A : Type} (key : A -> Z * Z) (a b : A) : Prop :=
  tuple_ltb (key b) (key a) = false.

(** The number of entries that satisfy [f]. *)
Definition count_if (f : entry -> bool) (l : list entry) : Z :=
  Z.of_nat (List.length (filter f l)).

(** [f] holds of the review date of [p]; [absent] is the answer when there
    is none. *)
Definition on_next_review (absent : bool) (f : Z -> bool) (p : entry) : bool :=
  match next_review p with
  | Some nr => f nr
  | None => absent
  end.

(** What holds of an entry [e] whose last completed call was [c] on [day]:
    its review date is [day] plus its interval; after [record_review] the
    day is its [last_review], after [add_solved] its interval is 3. *)
Definition scheduled_by (e : entry) (done : option (Z * call)) : Prop :=
  exists day c,
    done = Some (day, c) /\
    next_review e = Some (day + interval e) /\
    match c with
    | Review _ _ => last_review e = Some day
    | Add _ _ _ => interval e = 3
    end.

(** ** Doubles, for the proofs *)

(** The doubles [1.3] and [1000.0]. *)
Definition sf13 : spec_float := S754_finite false 5854679515581645 (-52).
Definition sf1000 : spec_float := S754_finite false 8796093022208000 (-43).

(** [n] thousandths, as [round3] computes them. *)
Definition thousandth (n : Z) : float := (SF2Prim (Py.Z2SF n) / 1000)%float.

(** [f] holds of the [k] integers from [lo] on. *)
Fixpoint all_from (f : Z -> bool) (lo : Z) (k : nat) : bool :=
  match k with
  | O => true
  | S k' => f lo && all_from f (lo + 1) k'
  end.

(** A zero, an infinity or a finite number of sign [sx] and exponent at
    least [ex]. *)
Inductive signed_as (sx : bool) (ex : Z) : spec_float -> Prop :=
| signed_zero : signed_as sx ex (S754_zero sx)
| signed_infinity : signed_as sx ex (S754_infinity sx)
| signed_finite m e : ex <= e -> signed_as sx ex (S754_finite sx m e).

(** ** Examples *)

Definition P1 : string := "P1".

(** 2026-11-04 *)
Definition day0 : Z := 739925.

(** A first solve and twelve perfect reviews. *)
Definition twelve_reviews : list (Z * call) :=
  (day0, Add P1 3 EmptyString) :: repeat (day0, Review P1 5) 12.

(** The entry of [P1] after a first solve of difficulty 3 on [day0], and
    after a perfect review the same day. *)
Definition fresh : entry :=
  {| id := P1; difficulty := 3; ef := 2.5; reps := 0; interval := 3;
     last_review := None; next_review := Some (day0 + 3); notes := EmptyString |}.

Definition once : entry :=
  {| id := P1; difficulty := 3; ef := 2.6; reps := 1; interval := 10;
     last_review := Some day0; next_review := Some (day0 + 10); notes := EmptyString |}.

(** The entry of [P1] after [twelve_reviews]. *)
Definition twelve : entry :=
  {| id := P1; difficulty := 3; ef := 3.7; reps := 12; interval := 2389489;
     last_review := Some day0; next_review := Some (day0 + 2389489);
     notes := EmptyString |}.

(** A solve, a review the same day, a second solve five days later, and
    the entry they leave. *)
Definition solved_again : list (Z * call) :=
  [(day0, Add P1 3 EmptyString); (day0, Review P1 5); (day0 + 5, Add P1 3 EmptyString)].

Definition again : entry :=
  {| id := P1; difficulty := 3; ef := 2.6; reps := 0; interval := 3;
     last_review := Some day0; next_review := Some (day0 + 8); notes := EmptyString |}.

(** A collection of four entries, on [day0 + 4]: [P1] due far ahead, [P2]
    without a review date, [P3] overdue, [P4] due today and harder than
    [P2]. *)
Definition undated : entry :=
  {| id := "P2"; difficulty := 4; ef := 2.45; reps := 0; interval := 3;
     last_review := None; next_review := None; notes := EmptyString |}.

Definition overdue_entry : entry :=
  {| id := "P3"; difficulty := 2; ef := 2.55; reps := 0; interval := 3;
     last_review := None; next_review := Some (day0 + 1);
     notes := EmptyString |}.

Definition harder : entry :=
  {| id := "P4"; difficulty := 5; ef := 2.4; reps := 0; interval := 3;
     last_review := None; next_review := Some (day0 + 4);
     notes := EmptyString |}.

Definition shelf : problems :=
  [(P1, twelve); ("P2"%string, undated); ("P3"%string, overdue_entry);
   ("P4"%string, harder)].

(** ** The listing of [summary]

    [summary] prints the plan of [study_plan_summary] and then one line for
    every entry, in the order of
    [sorted(values, key=lambda x: parse_iso(x["next_review"]) or today())].
    The text of the lines is left out; the plan and the order of the
    entries are what is modelled. *)

(** The sort key of [summary]. *)
Definition listing_key (d : Z) (x : entry) : Z :=
  match next_review x with
  | Some nr => nr
  | None => d
  end.

(** [sorted(l, key=...)] on integer keys: a stable sort, as [sort_by]. *)
Fixpoint insert_on {A : Type} (key : A -> Z) (x : A) (l : list A) : list A :=
  match l with
  | [] => [x]
  | y :: rest =>
      if key y <? key x then y :: insert_on key x rest
      else x :: l
  end.

Definition sort_on {A : Type} (key : A -> Z) (l : list A) : list A :=
  fold_right (insert_on key) [] l.

(** [SRS.summary], with [d] the value of [today()]: the plan and the
    entries in the order of their lines. *)
Definition summary (d : Z) (db : problems) : result (counts * list entry) :=
  rbind (study_plan_summary d db) (fun plan =>
  Ok (plan, sort_on (listing_key d) (values db))).

(** ** What a session recorded *)

(** The calls of a session that completed, in order. *)
Fixpoint completed (calls : list (Z * call)) (db : problems)
    : list (Z * call) :=
  match calls with
  | [] => []
  | (day, c) :: rest =>
      match exec day c db with
      | (Ok _, db') => (day, c) :: completed rest db'
      | (Raise _, db') => completed rest db'
      end
  end.

(** The successful reviews of [pid] in a row at the end of [done]: a solve
    or a review below 3 starts the count again. *)
Definition streak_step (pid : string) (n : Z) (dc : Z * call) : Z :=
  match snd dc with
  | Add p _ _ => if String.eqb pid p then 0 else n
  | Review p q =>
      if String.eqb pid p then (if q <? 3 then 0 else n + 1) else n
  end.

Definition streak (pid : string) (done : list (Z * call)) : Z :=
  fold_left (streak_step pid) done 0.

(** The day of the last review of [pid] in [done]. *)
Definition review_day_step (pid : string) (o : option Z) (dc : Z * call)
    : option Z :=
  match snd dc with
  | Add _ _ _ => o
  | Review p _ => if String.eqb pid p then Some (fst dc) else o
  end.

Definition review_day (pid : string) (done : list (Z * call)) : option Z :=
  fold_left (review_day_step pid) done None.

(** Equality of two sort keys. *)
Definition tuple_eqb (a b : Z * Z) : bool :=
  (fst a =? fst b) && (snd a =? snd b).

(** * Properties *)

(** Case analysis on every integer comparison of the goal. *)
Ltac compare_cases :=
  repeat match goal with
    | |- context [?a <? ?b] => destruct (Z.ltb_spec a b)
    | |- context [?a <=? ?b] => destruct (Z.leb_spec a b)
    | |- context [?a =? ?b] => destruct (Z.eqb_spec a b)
    end.


(** ** The collection *)

Lemma lookup_store_same pid e db : lookup pid (store pid e db) = Some e.
Proof.
  induction db as [|[k old] rest IH]; simpl.
  - now rewrite String.eqb_refl.
  - destruct (String.eqb pid k) eqn:E; simpl; rewrite E; auto.
Qed.

Lemma lookup_store_other pid pid' e db :
  pid <> pid' -> lookup pid (store pid' e db) = lookup pid db.
Proof.
  intros Hne. induction db as [|[k old] rest IH]; simpl.
  - apply String.eqb_neq in Hne. now rewrite Hne.
  - destruct (String.eqb pid' k) eqn:E; simpl.
    + apply String.eqb_eq in E. subst k.
      apply String.eqb_neq in Hne. now rewrite Hne.
    + now rewrite IH.
Qed.

Lemma store_absent pid e db :
  lookup pid db = None -> store pid e db = db ++ [(pid, e)].
Proof.
  induction db as [|[k old] rest IH]; simpl; auto.
  destruct (String.eqb pid k); [discriminate|].
  intros H. now rewrite IH.
Qed.

Lemma store_keys pid e e0 db :
  lookup pid db = Some e0 -> map fst (store pid e db) = map fst db.
Proof.
  induction db as [|[k old] rest IH]; simpl; [discriminate|].
  destruct (String.eqb pid k); simpl; auto.
  intros H. now rewrite IH.
Qed.

Lemma store_keys_absent pid e db :
  lookup pid db = None -> map fst (store pid e db) = map fst db ++ [pid].
Proof.
  intros H. rewrite (store_absent pid e db H), map_app. reflexivity.
Qed.

Lemma lookup_none_keys pid db : lookup pid db = None -> ~ In pid (map fst db).
Proof.
  induction db as [|[k old] rest IH]; simpl; auto.
  destruct (String.eqb_spec pid k) as [->|Hne]; [discriminate|].
  intros H [E|I]; [congruence|]. now apply IH.
Qed.

(** The keys stay distinct, as the keys of a dictionary are. *)
Lemma store_NoDup pid e db :
  NoDup (map fst db) -> NoDup (map fst (store pid e db)).
Proof.
  intros H. destruct (lookup pid db) as [e0|] eqn:L.
  - now rewrite (store_keys pid e e0 db L).
  - rewrite (store_keys_absent pid e db L).
    apply NoDup_rev in H. rewrite <- rev_involutive.
    apply NoDup_rev. rewrite rev_app_distr. cbn [rev app].
    constructor; auto. rewrite <- in_rev. now apply lookup_none_keys.
Qed.

Lemma contains_lookup pid db :
  contains pid db = match lookup pid db with Some _ => true | None => false end.
Proof. reflexivity. Qed.

(** ** Dates *)

Lemma date_add_ok d n :
  Py.MINORD <= d + n <= Py.MAXORD -> Z.abs n <= 999999999 ->
  Py.date_add d n = Ok (d + n).
Proof.
  intros [H1 H2] H3. unfold Py.date_add, Py.timedelta, rbind.
  apply Z.leb_le in H1, H2, H3. now rewrite H3, H1, H2.
Qed.

Lemma date_add_clock today n :
  clock_ok today -> 0 <= n <= 30 -> Py.date_add today n = Ok (today + n).
Proof.
  unfold clock_ok, Py.MINORD, Py.MAXORD. intros [H1 H2] Hn.
  apply date_add_ok; unfold Py.MINORD, Py.MAXORD; lia.
Qed.

Lemma date_add_inv d n r : Py.date_add d n = Ok r -> r = d + n.
Proof.
  unfold Py.date_add, Py.timedelta, rbind.
  destruct (Z.abs n <=? 999999999); [|discriminate].
  destruct (_ && _); [|discriminate]. now intros [= <-].
Qed.

(** ** Small integers as floats *)

Lemma float_of_quality q :
  0 <= q <= 5 -> exists d, Py.float_of_int (5 - q) = Ok d.
Proof.
  intros H.
  assert (C : q = 0 \/ q = 1 \/ q = 2 \/ q = 3 \/ q = 4 \/ q = 5) by lia.
  destruct C as [->|[->|[->|[->|[->| ->]]]]]; eexists; vm_compute; reflexivity.
Qed.

(** ** Binary64 arithmetic *)

Lemma digits2_size p : digits2_pos p = Pos.size p.
Proof. induction p; simpl; congruence. Qed.

Lemma digits2_bounds p :
  2 ^ (Z.pos (digits2_pos p) - 1) <= Z.pos p < 2 ^ Z.pos (digits2_pos p).
Proof.
  rewrite digits2_size. split.
  - pose proof (Pos.size_le p) as H.
    assert (E : 2 ^ Z.pos (Pos.size p) = 2 * 2 ^ (Z.pos (Pos.size p) - 1)).
    { rewrite <- Z.pow_succ_r by lia. f_equal. lia. }
    assert (H' : (2 ^ Z.pos (Pos.size p) <= Z.pos p~0)).
    { change 2 with (Z.pos 2) at 1. rewrite <- Pos2Z.inj_pow. now apply Pos2Z.pos_le_pos. }
    rewrite E in H'. rewrite Pos2Z.inj_xO in H'. lia.
  - pose proof (Pos.size_gt p) as H.
    change 2 with (Z.pos 2). rewrite <- Pos2Z.inj_pow. now apply Pos2Z.pos_lt_pos.
Qed.

Lemma digits2_unique p k :
  2 ^ (k - 1) <= Z.pos p < 2 ^ k -> Z.pos (digits2_pos p) = k.
Proof.
  intros [H1 H2]. destruct (digits2_bounds p) as [B1 B2].
  set (d := Z.pos (digits2_pos p)) in *.
  assert (0 < d) by (unfold d; lia).
  assert (0 < k).
  { destruct (Z.lt_trichotomy k 0) as [Hk|[Hk|Hk]]; auto.
    - rewrite Z.pow_neg_r in H2 by lia. lia.
    - subst k. simpl in H2. lia. }
  destruct (Z.lt_trichotomy d k) as [Hlt|[Heq|Hgt]]; auto.
  - assert (2 ^ d <= 2 ^ (k - 1)) by (apply Z.pow_le_mono_r; lia). lia.
  - assert (2 ^ k <= 2 ^ (d - 1)) by (apply Z.pow_le_mono_r; lia). lia.
Qed.

Lemma Zdigits2_bounds m :
  0 < m -> 2 ^ (Zdigits2 m - 1) <= m < 2 ^ Zdigits2 m.
Proof. destruct m as [|p|p]; try lia. intros _. apply digits2_bounds. Qed.

Lemma Zdigits2_unique m k :
  2 ^ (k - 1) <= m < 2 ^ k -> 0 < m -> Zdigits2 m = k.
Proof. destruct m as [|p|p]; try lia. intros H _. now apply digits2_unique. Qed.

Lemma shr_1_div r : 0 <= shr_m r -> shr_m (shr_1 r) = shr_m r / 2.
Proof.
  destruct r as [m b s]. simpl. intros H.
  destruct m as [|p|p]; [reflexivity| |lia].
  destruct p; simpl; rewrite <- Z.div2_div; reflexivity.
Qed.

Lemma pow2_xI p : 2 ^ Z.pos p~1 = 2 * (2 ^ Z.pos p * 2 ^ Z.pos p).
Proof.
  rewrite (Pos2Z.inj_xI p).
  replace (2 * Z.pos p + 1) with (1 + (Z.pos p + Z.pos p)) by lia.
  rewrite Z.pow_add_r by lia. rewrite Z.pow_add_r by lia. reflexivity.
Qed.

Lemma pow2_xO p : 2 ^ Z.pos p~0 = 2 ^ Z.pos p * 2 ^ Z.pos p.
Proof.
  rewrite (Pos2Z.inj_xO p).
  replace (2 * Z.pos p) with (Z.pos p + Z.pos p) by lia.
  now rewrite Z.pow_add_r by lia.
Qed.

Lemma iter_shr_1_div p : forall r,
  0 <= shr_m r -> shr_m (iter_pos shr_1 p r) = shr_m r / 2 ^ Z.pos p.
Proof.
  assert (P : forall k, 0 < 2 ^ Z.pos k) by (intros; apply Z.pow_pos_nonneg; lia).
  induction p as [p IH|p IH|]; intros r Hr; cbn [iter_pos].
  - assert (H1 : 0 <= shr_m (shr_1 r)).
    { rewrite shr_1_div by assumption. apply Z.div_pos; lia. }
    assert (H2 : 0 <= shr_m (iter_pos shr_1 p (shr_1 r))).
    { rewrite IH by assumption. apply Z.div_pos; auto. }
    rewrite IH, IH, shr_1_div by assumption.
    rewrite pow2_xI. rewrite Z.div_div by (auto; lia). rewrite Z.div_div by (auto; lia).
    f_equal; lia.
  - assert (H2 : 0 <= shr_m (iter_pos shr_1 p r)).
    { rewrite IH by assumption. apply Z.div_pos; auto. }
    rewrite IH, IH by assumption.
    pose proof (P p). rewrite pow2_xO. rewrite Z.div_div by lia. reflexivity.
  - now rewrite shr_1_div.
Qed.

Lemma fexp_normal z : -1021 <= z -> fexp prec emax z = z - 53.
Proof. unfold fexp, SpecFloat.emin, prec, emax. lia. Qed.

Lemma shr_fexp_normal m e l :
  0 < m -> 53 <= Zdigits2 m -> -1021 <= Zdigits2 m + e ->
  exists r, shr_fexp prec emax m e l = (r, e + (Zdigits2 m - 53)) /\
            shr_m r = m / 2 ^ (Zdigits2 m - 53).
Proof.
  intros Hm Hd He. unfold shr_fexp. rewrite fexp_normal by lia.
  replace (Zdigits2 m + e - 53 - e) with (Zdigits2 m - 53) by lia.
  destruct (Zdigits2 m - 53) as [|p|p] eqn:E; try lia; unfold shr.
  - eexists; split; [f_equal; lia|].
    rewrite Z.pow_0_r, Z.div_1_r. destruct l as [|[]]; reflexivity.
  - eexists; split; [reflexivity|].
    rewrite iter_shr_1_div; destruct l as [|[]]; simpl; try reflexivity; lia.
Qed.

Lemma round_nearest_even_cases m l :
  round_nearest_even m l = m \/ round_nearest_even m l = m + 1.
Proof.
  destruct l as [|[]]; simpl; auto. destruct (Z.even m); auto.
Qed.

Lemma binary_round_aux_normal sx mx ex lx :
  0 < mx -> 53 <= Zdigits2 mx -> -1021 <= Zdigits2 mx + ex ->
  (binary_round_aux prec emax sx mx ex lx = S754_infinity sx /\
   971 <= ex + (Zdigits2 mx - 53)) \/
  exists m e,
    binary_round_aux prec emax sx mx ex lx = S754_finite sx m e /\
    Z.pos (digits2_pos m) = 53 /\
    ex + (Zdigits2 mx - 53) <= e <= 971.
Proof.
  intros Hm Hd He. unfold binary_round_aux.
  destruct (shr_fexp_normal mx ex lx Hm Hd He) as (r & E1 & Hr).
  rewrite E1.
  destruct (Zdigits2_bounds mx Hm) as [B1 B2].
  set (k := Zdigits2 mx - 53) in *.
  assert (Hk : 0 < 2 ^ k) by (apply Z.pow_pos_nonneg; lia).
  assert (Hm1 : 2 ^ 52 <= shr_m r < 2 ^ 53).
  { rewrite Hr. split.
    - apply Z.div_le_lower_bound; auto.
      rewrite <- Z.pow_add_r by lia.
      replace (k + 52) with (Zdigits2 mx - 1) by (unfold k; lia). exact B1.
    - apply Z.div_lt_upper_bound; auto.
      rewrite <- Z.pow_add_r by lia.
      replace (k + 53) with (Zdigits2 mx) by (unfold k; lia). exact B2. }
  set (m2 := round_nearest_even (shr_m r) (loc_of_shr_record r)).
  assert (Hm2 : 2 ^ 52 <= m2 < 2 ^ 53 \/ m2 = 2 ^ 53).
  { destruct (round_nearest_even_cases (shr_m r) (loc_of_shr_record r)) as [E|E];
      fold m2 in E; lia. }
  destruct Hm2 as [Hm2|Hm2].
  - assert (D2 : Zdigits2 m2 = 53).
    { apply Zdigits2_unique; [exact Hm2|]. change (2 ^ 52) with 4503599627370496 in Hm2. lia. }
    destruct (shr_fexp_normal m2 (ex + k) loc_Exact) as (r2 & E2 & Hr2);
      [change (2 ^ 52) with 4503599627370496 in Hm2; lia | lia | lia |].
    rewrite E2, Hr2, D2. replace (53 - 53) with 0 by lia.
    rewrite Z.pow_0_r, Z.div_1_r.
    destruct m2 as [|p|p]; try (change (2 ^ 52) with 4503599627370496 in Hm2; lia).
    change (emax - prec) with 971.
    destruct (ex + k + 0 <=? 971) eqn:L;
      [|left; split; auto; apply Z.leb_gt in L; unfold k in L; lia].
    right. exists p, (ex + k + 0). apply Z.leb_le in L. repeat split; try lia.
    exact D2.
  - assert (D2 : Zdigits2 m2 = 54) by (rewrite Hm2; reflexivity).
    destruct (shr_fexp_normal m2 (ex + k) loc_Exact) as (r2 & E2 & Hr2);
      [rewrite Hm2; reflexivity | lia | lia |].
    rewrite E2, Hr2, D2, Hm2.
    change (2 ^ 53 / 2 ^ (54 - 53)) with (Z.pos 4503599627370496).
    change (emax - prec) with 971. cbv iota.
    destruct (ex + k + (54 - 53) <=? 971) eqn:L;
      [|left; split; auto; apply Z.leb_gt in L; unfold k in L; lia].
    right. do 2 eexists. apply Z.leb_le in L. repeat split; try lia.
Qed.

Lemma shr_fexp_nonneg m e l :
  0 <= m -> 0 <= shr_m (fst (shr_fexp prec emax m e l)).
Proof.
  intros Hm. unfold shr_fexp, shr.
  assert (H0 : shr_m (shr_record_of_loc m l) = m) by (destruct l as [|[]]; reflexivity).
  destruct (fexp prec emax (Zdigits2 m + e) - e) as [|p|p]; simpl; try lia.
  rewrite iter_shr_1_div by lia. rewrite H0.
  apply Z.div_pos; [lia|]. apply Z.pow_pos_nonneg; lia.
Qed.

Lemma shr_fexp_exponent m e l : e <= snd (shr_fexp prec emax m e l).
Proof.
  unfold shr_fexp, shr.
  destruct (fexp prec emax (Zdigits2 m + e) - e) as [|p|p]; simpl; lia.
Qed.


Lemma binary_round_aux_signed sx mx ex lx :
  0 <= mx -> signed_as sx ex (binary_round_aux prec emax sx mx ex lx).
Proof.
  intros Hm. unfold binary_round_aux.
  pose proof (shr_fexp_nonneg mx ex lx Hm) as H1.
  pose proof (shr_fexp_exponent mx ex lx) as X1.
  destruct (shr_fexp prec emax mx ex lx) as [r e1]. simpl in H1, X1.
  set (m2 := round_nearest_even (shr_m r) (loc_of_shr_record r)).
  assert (H2 : 0 <= m2).
  { destruct (round_nearest_even_cases (shr_m r) (loc_of_shr_record r)) as [E|E];
      fold m2 in E; lia. }
  pose proof (shr_fexp_nonneg m2 e1 loc_Exact H2) as H3.
  pose proof (shr_fexp_exponent m2 e1 loc_Exact) as X3.
  destruct (shr_fexp prec emax m2 e1 loc_Exact) as [r2 e2]. simpl in H3, X3.
  destruct (shr_m r2) as [|p|p]; try lia.
  - constructor.
  - destruct (e2 <=? emax - prec); constructor. lia.
Qed.

Lemma digits2_iter_xO d : forall p,
  Z.pos (digits2_pos (Pos.iter xO p d)) = Z.pos (digits2_pos p) + Z.pos d.
Proof.
  induction d as [|d IH] using Pos.peano_ind; intros p.
  - simpl. lia.
  - rewrite Pos.iter_succ. simpl digits2_pos. rewrite Pos2Z.inj_succ, IH. lia.
Qed.

Lemma binary_round_int sx p :
  (binary_round prec emax sx p 0 = S754_infinity sx /\
   1024 <= Z.pos (digits2_pos p)) \/
  exists m e,
    binary_round prec emax sx p 0 = S754_finite sx m e /\
    Z.pos (digits2_pos m) = 53 /\
    Z.pos (digits2_pos p) - 53 <= e <= 971.
Proof.
  unfold binary_round.
  rewrite fexp_normal by lia. unfold shl_align.
  destruct (Z.pos (digits2_pos p) + 0 - 53 - 0) as [|d|d] eqn:E.
  - destruct (binary_round_aux_normal sx (Z.pos p) 0 loc_Exact)
      as [[H X]|(m & e & H & D & B)]; simpl Zdigits2 in *; try lia.
    right. exists m, e. repeat split; auto; lia.
  - destruct (binary_round_aux_normal sx (Z.pos p) 0 loc_Exact)
      as [[H X]|(m & e & H & D & B)]; simpl Zdigits2 in *; try lia.
    + left. split; auto. lia.
    + right. exists m, e. repeat split; auto; lia.
  - pose proof (digits2_iter_xO d p) as Hd.
    destruct (binary_round_aux_normal sx (Z.pos (Pos.iter xO p d))
                (Z.pos (digits2_pos p) + 0 - 53) loc_Exact)
      as [[H X]|(m & e & H & D & B)]; simpl Zdigits2 in *; try lia.
    right. exists m, e. repeat split; auto; lia.
Qed.

(** The double nearest to a non-zero integer: an infinity from [2^1023]
    on, else a normal number with a 53-bit significand. *)
Lemma Z2SF_nonzero n :
  n <> 0 ->
  (Py.Z2SF n = S754_infinity (n <? 0) /\ 1024 <= Zdigits2 n) \/
  exists m e,
    Py.Z2SF n = S754_finite (n <? 0) m e /\
    Z.pos (digits2_pos m) = 53 /\
    Zdigits2 n - 53 <= e <= 971.
Proof.
  destruct n as [|p|p]; try lia; intros _;
    unfold Py.Z2SF, binary_normalize; simpl Zdigits2;
    [change (Z.pos p <? 0) with false | change (Z.neg p <? 0) with true];
    apply binary_round_int.
Qed.

Lemma finite53_valid s m e :
  Z.pos (digits2_pos m) = 53 -> -1074 <= e <= 971 ->
  valid_binary (S754_finite s m e) = true.
Proof.
  intros D B. unfold SpecFloat.valid_binary, bounded, canonical_mantissa.
  rewrite D. unfold fexp, SpecFloat.emin, prec, emax.
  apply andb_true_iff. split; [apply Z.eqb_eq|apply Z.leb_le]; lia.
Qed.

Lemma valid_finite s m e :
  valid_binary (S754_finite s m e) = true ->
  Z.pos (digits2_pos m) <= 53 /\ -1074 <= e <= 971 /\
  (-1074 < e -> Z.pos (digits2_pos m) = 53).
Proof.
  unfold SpecFloat.valid_binary, bounded, canonical_mantissa.
  unfold fexp, SpecFloat.emin, prec, emax.
  intros H. apply andb_true_iff in H. destruct H as [H1 H2].
  apply Z.eqb_eq in H1. apply Z.leb_le in H2. lia.
Qed.

Lemma Z2SF_valid n : valid_binary (Py.Z2SF n) = true.
Proof.
  destruct (Z.eq_dec n 0) as [->|Hn]; [reflexivity|].
  destruct (Z2SF_nonzero n Hn) as [[H _]|(m & e & H & D & B)]; rewrite H; [reflexivity|].
  apply finite53_valid; auto.
  assert (0 <= Zdigits2 n) by (destruct n; simpl; lia). lia.
Qed.

Lemma Prim2SF_Z2SF n : Prim2SF (SF2Prim (Py.Z2SF n)) = Py.Z2SF n.
Proof. apply Prim2SF_SF2Prim, Z2SF_valid. Qed.

Lemma Zdigits2_ge m k : 2 ^ (k - 1) <= m -> 0 < m -> k <= Zdigits2 m.
Proof.
  intros H Hm. destruct (Zdigits2_bounds m Hm) as [_ B].
  destruct (Z_lt_le_dec (Zdigits2 m) k) as [L|L]; [|lia].
  assert (2 ^ Zdigits2 m <= 2 ^ (k - 1)) by (apply Z.pow_le_mono_r; lia). lia.
Qed.


Lemma Prim2SF_1000 : Prim2SF 1000 = sf1000.
Proof. vm_compute. reflexivity. Qed.

Lemma SFdiv_1000 m e :
  Z.pos (digits2_pos m) = 53 -> -41 <= e <= 971 ->
  SFdiv prec emax (S754_finite false m e) sf1000 = S754_infinity false \/
  exists m' e',
    SFdiv prec emax (S754_finite false m e) sf1000 = S754_finite false m' e' /\
    -51 <= e'.
Proof.
  intros D B. unfold sf1000, SFdiv, SFdiv_core_binary.
  simpl Zdigits2. rewrite D.
  change (Z.pos (digits2_pos 8796093022208000)) with 53.
  rewrite fexp_normal by lia.
  replace (Z.min (53 + e - (53 + -43) - 53) (e - -43)) with (e - 10) by lia.
  replace (e - -43 - (e - 10)) with 53 by lia.
  rewrite Z.shiftl_mul_pow2 by lia.
  pose proof (digits2_bounds m) as Bm. rewrite D in Bm.
  change (2 ^ (53 - 1)) with 4503599627370496 in Bm.
  change (2 ^ 53) with 9007199254740992 in *.
  pose proof (Z_div_mod (Z.pos m * 9007199254740992) 8796093022208000 eq_refl) as Hq.
  destruct (Z.div_eucl (Z.pos m * 9007199254740992) 8796093022208000) as [q r].
  simpl xorb.
  assert (Hq1 : 4503599627370496 <= q) by lia.
  assert (Dq : 53 <= Zdigits2 q).
  { apply Zdigits2_ge; [|lia]. change (2 ^ (53 - 1)) with 4503599627370496. lia. }
  destruct (binary_round_aux_normal false q (e - 10) (new_location 8796093022208000 r))
    as [[H _]|(m' & e' & H & D' & B')]; try lia; auto.
  right. exists m', e'. split; auto. lia.
Qed.


(** ** Rounding a quotient to the nearest integer *)

Lemma div_half_even_floor a b :
  0 < b -> a / b <= Py.div_half_even a b <= a / b + 1.
Proof.
  intros Hb. unfold Py.div_half_even.
  destruct (2 * (a mod b) ?= b); [destruct (Z.even (a / b))| |]; lia.
Qed.

Lemma div_half_even_ge a b k :
  0 < b -> k * b <= a -> k <= Py.div_half_even a b.
Proof.
  intros Hb H. pose proof (div_half_even_floor a b Hb).
  assert (k <= a / b) by (apply Z.div_le_lower_bound; lia). lia.
Qed.



(** [div_half_even a b] is an integer nearest to [a / b], and the even one
    of the two when [a / b] is halfway between them. *)
Lemma div_half_even_nearest a b :
  0 < b ->
  Z.abs (2 * (a - Py.div_half_even a b * b)) <= b /\
  (Z.abs (2 * (a - Py.div_half_even a b * b)) = b ->
   Z.even (Py.div_half_even a b) = true).
Proof.
  intros Hb. unfold Py.div_half_even.
  pose proof (Z.div_mod a b ltac:(lia)) as E.
  pose proof (Z.mod_pos_bound a b Hb) as R.
  destruct (Z.compare_spec (2 * (a mod b)) b) as [C|C|C].
  - destruct (Z.even (a / b)) eqn:Ev.
    + split; [nia|auto].
    + split; [nia|]. intros _.
      rewrite Z.even_add, Ev. reflexivity.
  - split; nia.
  - split; nia.
Qed.

Example round_ties :
  Py.round 0.5 = Ok 0 /\ Py.round 1.5 = Ok 2 /\ Py.round 2.5 = Ok 2 /\
  Py.round 3.5 = Ok 4 /\ Py.round (-2.5) = Ok (-2) /\ Py.round 26 = Ok 26.
Proof. repeat split; vm_compute; reflexivity. Qed.

Example round3_samples :
  Py.round3 2.675 = 2.675%float /\ Py.round3 1.0005 = 1%float /\
  Py.round3 1.0015 = 1.002%float /\ Py.round3 0.0005 = 0.001%float /\
  Py.round3 2.16 = 2.16%float /\ Py.round3 (-0.0001) = (-0)%float.
Proof. repeat split; vm_compute; reflexivity. Qed.

(** ** Tables *)


Lemma all_from_spec f k : forall lo,
  all_from f lo k = true -> forall n, lo <= n < lo + Z.of_nat k -> f n = true.
Proof.
  induction k as [|k IH]; intros lo H n Hn; [lia|].
  simpl in H. apply andb_true_iff in H. destruct H as [H1 H2].
  destruct (Z.eq_dec n lo) as [->|Hne]; auto.
  apply (IH (lo + 1)); auto. lia.
Qed.


Lemma thousandths_from_1300 :
  all_from (fun n => (1.3 <=? thousandth n)%float) 1300 748 = true.
Proof. vm_compute. reflexivity. Qed.



(** ** Comparisons with 1.3 *)


Lemma Prim2SF_13 : Prim2SF 1.3 = sf13.
Proof. vm_compute. reflexivity. Qed.

Lemma leb_13 x : (1.3 <=? x)%float = SFleb sf13 (Prim2SF x).
Proof. now rewrite leb_spec, Prim2SF_13. Qed.


Lemma SFltb_leb a b : SFltb a b = true -> SFleb a b = true.
Proof. unfold SFltb, SFleb. destruct (SFcompare a b) as [[]|]; auto. Qed.

Lemma SFleb_13_exponent m e : -52 < e -> SFleb sf13 (S754_finite false m e) = true.
Proof.
  intros H. unfold SFleb, sf13, SFcompare.
  apply Z.compare_lt_iff in H. now rewrite H.
Qed.




(** What [1.3 <= x] and [not (1.3 < x)] say of a finite positive [x]. *)
Lemma SFleb_13_inv m e :
  SFleb sf13 (S754_finite false m e) = true ->
  -52 < e \/ (e = -52 /\ 5854679515581645 <= Z.pos m).
Proof.
  unfold SFleb, sf13, SFcompare.
  destruct (Z.compare_spec (-52) e) as [E|L|G]; try discriminate.
  2: { intros _. left. exact L. }
  intros H. right. split; [lia|].
  change (Pos.compare_cont Eq 5854679515581645 m)
    with (Pos.compare 5854679515581645 m) in H.
  rewrite Pos2Z.inj_compare in H.
  destruct (Z.compare_spec 5854679515581645 (Z.pos m)) as [E'|L'|G'];
    try discriminate; lia.
Qed.



(** ** [round(x, 3)] around 1.3 *)

Lemma thousandth_large n :
  2048 <= n -> (1.3 <=? thousandth n)%float = true.
Proof.
  intros Hn. rewrite leb_13. unfold thousandth.
  rewrite div_spec, Prim2SF_Z2SF, Prim2SF_1000. unfold SF64div.
  assert (S : (n <? 0) = false) by (apply Z.ltb_ge; lia).
  destruct (Z2SF_nonzero n) as [[Hi _]|(m & e & Hf & D & B)]; [lia| |];
    rewrite S in *.
  - rewrite Hi. reflexivity.
  - rewrite Hf.
    assert (12 <= Zdigits2 n).
    { apply Zdigits2_ge; [|lia]. change (2 ^ (12 - 1)) with 2048. lia. }
    destruct (SFdiv_1000 m e D) as [Hd|(m' & e' & Hd & Be)]; [lia| |];
      rewrite Hd; [reflexivity|].
    apply SFleb_13_exponent. lia.
Qed.


Lemma round3_floor x :
  (1.3 <=? x)%float = true -> (1.3 <=? Py.round3 x)%float = true.
Proof.
  intros H. pose proof H as H'. rewrite leb_13 in H'.
  pose proof (Prim2SF_valid x) as V. unfold Py.round3.
  destruct (Prim2SF x) as [s|s| |s m e] eqn:E; try exact H.
  destruct (-10 <? e) eqn:L; [exact H|]. apply Z.ltb_ge in L.
  destruct s; [discriminate H'|].
  destruct (valid_finite _ _ _ V) as (D1 & B & D2).
  pose proof (SFleb_13_inv m e H') as A.
  assert (D : Z.pos (digits2_pos m) = 53) by (apply D2; lia).
  pose proof (digits2_bounds m) as Bm. rewrite D in Bm.
  change (2 ^ (53 - 1)) with 4503599627370496 in Bm.
  change (2 ^ 53) with 9007199254740992 in Bm.
  fold (thousandth (Py.div_half_even (Z.pos m * 1000) (2 ^ (- e)))).
  set (b := 2 ^ (- e)).
  assert (Hb1 : 2 ^ 10 <= b) by (apply Z.pow_le_mono_r; lia).
  assert (Hb2 : -52 < e -> b <= 2 ^ 51) by (intros; apply Z.pow_le_mono_r; lia).
  assert (Hb3 : e = -52 -> b = 2 ^ 52) by (intros ->; reflexivity).
  change (2 ^ 10) with 1024 in Hb1.
  change (2 ^ 51) with 2251799813685248 in Hb2.
  change (2 ^ 52) with 4503599627370496 in Hb3.
  set (n := Py.div_half_even (Z.pos m * 1000) b).
  assert (Hn : 1300 <= n).
  { apply div_half_even_ge; [lia|]. destruct A as [A|[A1 A2]].
    - specialize (Hb2 A). lia.
    - rewrite (Hb3 A1). lia. }
  destruct (Z_lt_le_dec n 2048) as [Hs|Hl].
  - apply (all_from_spec _ _ _ thousandths_from_1300 n). simpl. lia.
  - now apply thousandth_large.
Qed.


Lemma max_13_ge y : (1.3 <=? Py.max 1.3 y)%float = true.
Proof.
  unfold Py.max. destruct (1.3 <? y)%float eqn:L; [|reflexivity].
  rewrite leb_spec. rewrite ltb_spec in L. now apply SFltb_leb.
Qed.



(** ** Integers as floats *)

Lemma float_of_int_defined n :
  Z.abs n < 2 ^ 1023 -> exists x, Py.float_of_int n = Ok x.
Proof.
  intros Hn. unfold Py.float_of_int.
  destruct (Z.eq_dec n 0) as [->|Hne]; [eexists; reflexivity|].
  destruct (Z2SF_nonzero n Hne) as [[H X]|(m & e & H & _)]; rewrite H;
    [|eexists; reflexivity].
  exfalso.
  assert (Ha : 0 < Z.abs n) by lia.
  assert (Hd : Zdigits2 (Z.abs n) = Zdigits2 n) by (destruct n; reflexivity).
  destruct (Zdigits2_bounds (Z.abs n) Ha) as [B _]. rewrite Hd in B.
  assert (2 ^ 1023 <= 2 ^ (Zdigits2 n - 1)) by (apply Z.pow_le_mono_r; lia).
  lia.
Qed.

Lemma float_of_int_positive n p :
  1 <= n -> Py.float_of_int n = Ok p ->
  exists m e, Prim2SF p = S754_finite false m e.
Proof.
  intros Hn. unfold Py.float_of_int.
  assert (S : (n <? 0) = false) by (apply Z.ltb_ge; lia).
  pose proof (Prim2SF_Z2SF n) as V.
  destruct (Z2SF_nonzero n) as [[H _]|(m & e & H & _)]; [lia| |];
    rewrite S in H; rewrite H in *; [discriminate|].
  intros [= <-]. eauto.
Qed.

(** A float that is at least 1.3 is a positive number or the positive
    infinity. *)
Lemma at_least_13 x :
  (1.3 <=? x)%float = true ->
  Prim2SF x = S754_infinity false \/ exists m e, Prim2SF x = S754_finite false m e.
Proof.
  rewrite leb_13.
  destruct (Prim2SF x) as [s|s| |s m e]; try discriminate;
    destruct s; try discriminate; eauto.
Qed.

(** The product in [record_review] is a number when the entry is well
    formed, so rounding it does not raise [ValueError]. *)
Lemma round_product_not_nan e p :
  entry_ok e -> Py.float_of_int (interval e) = Ok p ->
  Py.round (p * ef e) <> Raise ValueError.
Proof.
  intros (Hef & Hi & _) Hp.
  destruct (float_of_int_positive _ _ Hi Hp) as (m & ex & Ep).
  unfold Py.round. rewrite mul_spec, Ep. unfold SF64mul.
  destruct (at_least_13 _ Hef) as [Ee|(m' & e' & Ee)]; rewrite Ee.
  - simpl. discriminate.
  - unfold SFmul.
    pose proof (binary_round_aux_signed (xorb false false)
                  (Z.pos (m * m')) (ex + e') loc_Exact ltac:(lia)) as S.
    destruct S; discriminate.
Qed.

(** ** The methods, call by call *)

Lemma record_review_eq today pid q db :
  record_review today pid q db =
  match lookup pid db with
  | None => (Raise KeyError, db)
  | Some e =>
      if (0 <=? q) && (q <=? 5) then
        match reviewed today e q with
        | Ok e' => (Ok tt, store pid e' db)
        | Raise x => (Raise x, db)
        end
      else (Raise ValueError, db)
  end.
Proof.
  unfold record_review, reviewed, next_schedule, bind, get_db, getitem,
    raise, ret, lift, setitem, rbind.
  rewrite contains_lookup. cbv beta iota zeta.
  destruct (lookup pid db) as [e|] eqn:L; [|reflexivity]. cbn [negb].
  destruct ((0 <=? q) && (q <=? 5)); cbn [negb]; [|reflexivity].
  cbv beta iota zeta. rewrite L.
  destruct (q <? 3); cbv beta iota zeta.
  - cbn [fst snd]. destruct (Py.float_of_int (5 - q)); [|reflexivity].
    destruct (Py.date_add today 3); reflexivity.
  - destruct (reps e + 1 =? 1); cbv beta iota zeta.
    + cbn [fst snd]. destruct (Py.float_of_int (5 - q)); [|reflexivity].
      destruct (Py.date_add today 10); reflexivity.
    + destruct (Py.float_of_int (interval e)) as [p|]; [|reflexivity].
      destruct (Py.round (p * ef e)) as [r|]; [|reflexivity].
      cbn [fst snd]. destruct (Py.float_of_int (5 - q)); [|reflexivity].
      destruct (Py.date_add today (Z.max 1 r)); reflexivity.
Qed.

Lemma add_solved_eq today pid diff new_notes db :
  add_solved today pid diff new_notes db =
  match lookup pid db with
  | Some e =>
      match reset today e diff new_notes with
      | Ok e' => (Ok tt, store pid e' db)
      | Raise x => (Raise x, db)
      end
  | None =>
      match created today pid diff new_notes with
      | Ok e' => (Ok tt, store pid e' db)
      | Raise x => (Raise x, db)
      end
  end.
Proof.
  unfold add_solved, reset, created, _make_entry, bind, get_db, getitem,
    raise, ret, lift, setitem, rbind.
  rewrite contains_lookup. cbv beta iota zeta.
  destruct (lookup pid db) as [e|] eqn:L; cbv beta iota zeta; rewrite ?L.
  - destruct (Py.float_of_int (diff - 3)); [|reflexivity].
    destruct (Py.date_add today 3); reflexivity.
  - destruct (Py.float_of_int (diff - 3)); [|reflexivity].
    destruct (Py.date_add today 3); reflexivity.
Qed.

(** A call that raises leaves the collection as it was; a call that
    completes stores one entry, under the identifier it was given. *)
Lemma exec_outcome day c db :
  match exec day c db with
  | (Raise _, db') => db' = db
  | (Ok _, db') =>
      exists e', db' = store (call_pid c) e' db /\
                 scheduled_by e' (Some (day, c))
  end.
Proof.
  destruct c as [pid diff n|pid q]; cbn [exec call_pid].
  - rewrite add_solved_eq.
    destruct (lookup pid db) as [e|]; unfold reset, created, rbind;
      (destruct (Py.float_of_int (diff - 3)); [|reflexivity]);
      (destruct (Py.date_add day 3) as [nr|] eqn:Hd; [|reflexivity]);
      apply date_add_inv in Hd; subst nr;
      (eexists; split; [reflexivity|]);
      exists day, (Add pid diff n); cbn; auto.
  - rewrite record_review_eq.
    destruct (lookup pid db) as [e|]; [|reflexivity].
    destruct ((0 <=? q) && (q <=? 5)); [|reflexivity].
    unfold reviewed, rbind.
    destruct (next_schedule e q) as [[r i]|]; [|reflexivity].
    destruct (Py.float_of_int (5 - q)); [|reflexivity].
    cbn [fst snd].
    destruct (Py.date_add day i) as [nr|] eqn:Hd; [|reflexivity].
    apply date_add_inv in Hd. subst nr.
    eexists; split; [reflexivity|].
    exists day, (Review pid q). cbn. auto.
Qed.

(** The data model is kept by every call. *)
Lemma next_schedule_ok e q r i :
  0 <= reps e -> next_schedule e q = Ok (r, i) -> 1 <= i /\ 0 <= r.
Proof.
  intros Hr. unfold next_schedule, rbind.
  destruct (q <? 3); [intros [= <- <-]; lia|].
  destruct (reps e + 1 =? 1); [intros [= <- <-]; lia|].
  destruct (Py.float_of_int (interval e)) as [p|]; [|discriminate].
  destruct (Py.round (p * ef e)) as [x|]; [|discriminate].
  intros [= <- <-]. lia.
Qed.

Lemma db_ok_store pid e db : db_ok db -> entry_ok e -> db_ok (store pid e db).
Proof.
  intros Hdb He k e0 Hk.
  destruct (String.eqb_spec k pid) as [->|Hne].
  - rewrite lookup_store_same in Hk. now injection Hk as <-.
  - rewrite lookup_store_other in Hk by assumption. eauto.
Qed.

Lemma exec_db_ok day c db : db_ok db -> db_ok (snd (exec day c db)).
Proof.
  intros Hdb. destruct c as [pid diff n|pid q]; cbn [exec].
  - rewrite add_solved_eq.
    destruct (lookup pid db) as [e|] eqn:L; unfold reset, created, rbind;
      (destruct (Py.float_of_int (diff - 3)); [|exact Hdb]);
      (destruct (Py.date_add day 3); [|exact Hdb]);
      cbn [snd]; apply db_ok_store; auto; repeat split; cbn; try lia.
    + apply round3_floor, max_13_ge.
    + apply max_13_ge.
  - rewrite record_review_eq.
    destruct (lookup pid db) as [e|] eqn:L; [|exact Hdb].
    destruct ((0 <=? q) && (q <=? 5)); [|exact Hdb].
    unfold reviewed, rbind.
    destruct (next_schedule e q) as [[r i]|] eqn:N; [|exact Hdb].
    destruct (Py.float_of_int (5 - q)); [|exact Hdb].
    cbn [fst snd].
    destruct (Py.date_add day i); [|exact Hdb].
    cbn [snd]. apply db_ok_store; auto.
    destruct (Hdb _ _ L) as (_ & _ & Hr).
    destruct (next_schedule_ok e q r i Hr N).
    repeat split; cbn; auto.
    apply round3_floor, max_13_ge.
Qed.

Lemma run_db_ok calls : forall db, db_ok db -> db_ok (run calls db).
Proof.
  induction calls as [|[day c] rest IH]; intros db Hdb; cbn [run]; auto.
  apply IH, exec_db_ok, Hdb.
Qed.

Lemma db_ok_nil : db_ok [].
Proof. intros pid e H. discriminate. Qed.

(** ** What a call can raise *)

Lemma float_of_int_raises n x : Py.float_of_int n = Raise x -> x = OverflowError.
Proof.
  unfold Py.float_of_int. destruct (Py.Z2SF n); try discriminate.
  now intros [= <-].
Qed.

Lemma date_add_raises d n x : Py.date_add d n = Raise x -> x = OverflowError.
Proof.
  unfold Py.date_add, Py.timedelta, rbind.
  destruct (Z.abs n <=? 999999999); [|now intros [= <-]].
  destruct (_ && _); [discriminate|now intros [= <-]].
Qed.

Lemma round_raises y x :
  Py.round y = Raise x -> x = ValueError \/ x = OverflowError.
Proof.
  unfold Py.round. destruct (Prim2SF y); try discriminate;
    intros [= <-]; auto.
Qed.

Lemma quality_in_range q : 0 <= q <= 5 <-> (0 <=? q) && (q <=? 5) = true.
Proof. rewrite andb_true_iff, !Z.leb_le. tauto. Qed.

(** Computing the new entry never raises [KeyError]. *)
Lemma reviewed_raises_any today e q x :
  reviewed today e q = Raise x -> x = ValueError \/ x = OverflowError.
Proof.
  assert (D : forall n (k : Z -> entry),
             match Py.date_add today n with
             | Ok nr => Ok (k nr)
             | Raise y => Raise y
             end = Raise x -> x = ValueError \/ x = OverflowError).
  { intros n k. destruct (Py.date_add today n) eqn:E; [discriminate|].
    intros [= <-]. right. eapply date_add_raises; eauto. }
  assert (F : forall (k : float -> result entry),
             (forall d, k d = Raise x -> x = ValueError \/ x = OverflowError) ->
             match Py.float_of_int (5 - q) with
             | Ok d => k d
             | Raise y => Raise y
             end = Raise x -> x = ValueError \/ x = OverflowError).
  { intros k Hk. destruct (Py.float_of_int (5 - q)) eqn:E; [apply Hk|].
    intros [= <-]. right. eapply float_of_int_raises; eauto. }
  unfold reviewed, next_schedule, rbind.
  destruct (q <? 3); cbn [fst snd]; [apply F; intros d; apply D|].
  destruct (reps e + 1 =? 1); cbn [fst snd]; [apply F; intros d; apply D|].
  destruct (Py.float_of_int (interval e)) as [p|y] eqn:Hp;
    [|intros [= <-]; right; eapply float_of_int_raises; eauto].
  destruct (Py.round (p * ef e)) as [r|y] eqn:Hr; cbn [fst snd];
    [apply F; intros d; apply D|].
  intros [= <-]. eapply round_raises; eauto.
Qed.

(** With a well-formed entry and a quality in range, the only exception is
    [OverflowError]. *)
Lemma reviewed_raises today e q x :
  entry_ok e -> 0 <= q <= 5 -> reviewed today e q = Raise x ->
  x = OverflowError.
Proof.
  intros He Hq. destruct (float_of_quality q Hq) as [d Hd].
  assert (D : forall n (k : Z -> entry),
             match Py.date_add today n with
             | Ok nr => Ok (k nr)
             | Raise y => Raise y
             end = Raise x -> x = OverflowError).
  { intros n k. destruct (Py.date_add today n) eqn:E; [discriminate|].
    intros [= <-]. eapply date_add_raises; eauto. }
  unfold reviewed, next_schedule, rbind. rewrite Hd.
  destruct (q <? 3); cbn [fst snd]; [apply D|].
  destruct (reps e + 1 =? 1); cbn [fst snd]; [apply D|].
  destruct (Py.float_of_int (interval e)) as [p|y] eqn:Hp;
    [|intros [= <-]; eapply float_of_int_raises; eauto].
  destruct (Py.round (p * ef e)) as [r|y] eqn:Hr; cbn [fst snd];
    [apply D|].
  intros [= <-]. destruct (round_raises _ _ Hr) as [->| ->]; auto.
  exfalso. eapply round_product_not_nan; eauto.
Qed.

(** ** Sample sessions *)

(** A first solve of difficulty 3; a perfect review the same day; a second
    one ten days later; then a review of quality 1. *)
Example first_solve :
  run [(day0, Add P1 3 EmptyString)] [] = [(P1, fresh)].
Proof. vm_compute. reflexivity. Qed.

Example first_review :
  run [(day0, Review P1 5)] [(P1, fresh)] = [(P1, once)].
Proof. vm_compute. reflexivity. Qed.

Example second_review :
  run [(day0 + 10, Review P1 5)] [(P1, once)] =
  [(P1, {| id := P1; difficulty := 3; ef := 2.7; reps := 2; interval := 26;
           last_review := Some (day0 + 10);
           next_review := Some (day0 + 36); notes := EmptyString |})].
Proof. vm_compute. reflexivity. Qed.

Example lapse_after_two :
  run [(day0 + 10, Review P1 5); (day0 + 36, Review P1 1)] [(P1, once)] =
  [(P1, {| id := P1; difficulty := 3; ef := 2.16; reps := 0; interval := 3;
           last_review := Some (day0 + 36);
           next_review := Some (day0 + 39); notes := EmptyString |})].
Proof. vm_compute. reflexivity. Qed.

(** A lapse completes whenever the clock shows a date of the calendar. *)
Lemma reviewed_lapse today e q :
  clock_ok today -> 0 <= q < 3 ->
  exists e',
    reviewed today e q = Ok e' /\
    reps e' = 0 /\ interval e' = 3 /\ next_review e' = Some (today + 3).
Proof.
  intros C Hq.
  destruct (float_of_quality q ltac:(lia)) as [d Hd].
  assert (Q : (q <? 3) = true) by (apply Z.ltb_lt; lia).
  unfold reviewed, next_schedule, rbind. rewrite Q, Hd. cbn [fst snd].
  rewrite (date_add_clock today 3 C) by lia.
  eexists. split; [reflexivity|]. cbn. auto.
Qed.

(** When a date shifted by [n] days exists. *)
Lemma date_add_defined d n :
  (exists r, Py.date_add d n = Ok r) <->
  Z.abs n <= 999999999 /\ Py.MINORD <= d + n <= Py.MAXORD.
Proof.
  split.
  - intros [r H]. unfold Py.date_add, Py.timedelta, rbind in H.
    destruct (Z.abs n <=? 999999999) eqn:A; [|discriminate].
    destruct ((Py.MINORD <=? d + n) && (d + n <=? Py.MAXORD)) eqn:B;
      [|discriminate].
    apply andb_true_iff in B. destruct B as [B1 B2].
    apply Z.leb_le in A, B1, B2. lia.
  - intros [A B]. exists (d + n). apply date_add_ok; assumption.
Qed.

(** A review of quality 3 to 5 goes through exactly when the new interval
    exists and the day it leads to is a date of the calendar. *)
Lemma reviewed_graded today e q :
  clock_ok today -> 3 <= q <= 5 ->
  ((exists e', reviewed today e q = Ok e') <->
   exists n,
     (reps e + 1 = 1 /\ n = 10 \/
      reps e + 1 <> 1 /\
      exists p r, Py.float_of_int (interval e) = Ok p /\
                  Py.round (p * ef e) = Ok r /\ n = Z.max 1 r) /\
     today + n <= Py.MAXORD).
Proof.
  intros [C1 C2] Hq.
  destruct (float_of_quality q ltac:(lia)) as [d Hd].
  assert (Q : (q <? 3) = false) by (apply Z.ltb_ge; lia).
  assert (D : forall n, 1 <= n ->
            ((exists r, Py.date_add today n = Ok r) <->
             today + n <= Py.MAXORD)).
  { intros n Hn. rewrite date_add_defined.
    unfold Py.MINORD, Py.MAXORD in *. lia. }
  unfold reviewed, next_schedule, rbind. rewrite Q.
  destruct (reps e + 1 =? 1) eqn:R.
  - apply Z.eqb_eq in R. rewrite Hd. cbn [fst snd].
    specialize (D 10 ltac:(lia)). split.
    + intros [e' H]. exists 10. split; [left; auto|].
      apply D. destruct (Py.date_add today 10) as [r|]; [eauto|discriminate].
    + intros (n & [[_ ->]|[N _]] & H); [|contradiction].
      apply D in H. destruct H as [r ->]. eauto.
  - apply Z.eqb_neq in R.
    destruct (Py.float_of_int (interval e)) as [p|] eqn:P.
    + destruct (Py.round (p * ef e)) as [r|] eqn:Rd.
      * rewrite Hd. cbn [fst snd].
        specialize (D (Z.max 1 r) ltac:(lia)). split.
        -- intros [e' H]. exists (Z.max 1 r). split.
           ++ right. split; [exact R|]. exists p, r. auto.
           ++ apply D. destruct (Py.date_add today (Z.max 1 r)) as [x|];
                [eauto|discriminate].
        -- intros (n & [[N _]|[_ (p' & r' & P' & Rd' & ->)]] & Hn);
             [contradiction|].
           injection P' as <-. rewrite Rd in Rd'. injection Rd' as <-.
           apply D in Hn. destruct Hn as [x ->]. eauto.
      * split.
        -- intros [e' H]. discriminate.
        -- intros (n & [[N _]|[_ (p' & r' & P' & Rd' & _)]] & _);
             [contradiction|].
           injection P' as <-. rewrite Rd in Rd'. discriminate.
    + split.
      * intros [e' H]. discriminate.
      * intros (n & [[N _]|[_ (p' & r' & P' & _)]] & _);
          [contradiction|discriminate].
Qed.

(** * The claims *)

(** ** Graded reviews *)

(** C1 (as amended).  For an entry in the collection and a quality from 3
    to 5, [record_review] adds one to the repetitions; the new interval is
    10 when the new count is 1 and [max(1, round(prev_interval * ef))]
    otherwise, with [ef] the ease factor read before this review changes it
    and [round] rounding ties to the even neighbour
    ([div_half_even_nearest]); [last_review] becomes
    today and [next_review] today plus the new interval.  This holds when
    the rounded product exists (the interval converts to a float and the
    product is finite) and today plus the new interval is a date of the
    calendar. *)
Theorem record_review_success today db pid e q n :
  clock_ok today ->
  lookup pid db = Some e ->
  3 <= q <= 5 ->
  (reps e + 1 = 1 /\ n = 10) \/
  (reps e + 1 <> 1 /\
   exists p r, Py.float_of_int (interval e) = Ok p /\
               Py.round (p * ef e) = Ok r /\ n = Z.max 1 r) ->
  today + n <= Py.MAXORD ->
  exists e',
    record_review today pid q db = (Ok tt, store pid e' db) /\
    lookup pid (store pid e' db) = Some e' /\
    reps e' = reps e + 1 /\
    interval e' = n /\
    last_review e' = Some today /\
    next_review e' = Some (today + n).
Proof.
  intros [C1 C2] L Hq Hn Hmax.
  assert (Hq' : 0 <= q <= 5) by lia.
  destruct (float_of_quality q Hq') as [d Hd].
  apply quality_in_range in Hq'.
  rewrite record_review_eq, L, Hq'.
  assert (Q : (q <? 3) = false) by (apply Z.ltb_ge; lia).
  assert (N : next_schedule e q = Ok (reps e + 1, n)).
  { unfold next_schedule, rbind. rewrite Q.
    destruct Hn as [[H1 ->]|[H1 (p & r & Hp & Hr & ->)]].
    - apply Z.eqb_eq in H1. now rewrite H1.
    - apply Z.eqb_neq in H1. now rewrite H1, Hp, Hr. }
  assert (Hpos : 1 <= n).
  { destruct Hn as [[_ ->]|[_ (p & r & _ & _ & ->)]]; lia. }
  assert (D : Py.date_add today n = Ok (today + n)).
  { unfold Py.MINORD, Py.MAXORD in *. apply date_add_ok;
      unfold Py.MINORD, Py.MAXORD; lia. }
  unfold reviewed, rbind. rewrite N, Hd. cbn [fst snd]. rewrite D.
  eexists. split; [reflexivity|]. split; [apply lookup_store_same|].
  cbn. auto.
Qed.

Lemma record_review_success_witness :
  exists e',
    record_review (day0 + 10) P1 5 [(P1, once)] =
      (Ok tt, store P1 e' [(P1, once)]) /\
    lookup P1 (store P1 e' [(P1, once)]) = Some e' /\
    reps e' = reps once + 1 /\
    interval e' = 26 /\
    last_review e' = Some (day0 + 10) /\
    next_review e' = Some (day0 + 10 + 26).
Proof.
  apply (record_review_success (day0 + 10) [(P1, once)] P1 once 5 26).
  - unfold clock_ok, Py.MINORD, Py.MAXORD, day0. lia.
  - reflexivity.
  - lia.
  - right. split; [simpl; lia|].
    exists 10%float, 26. repeat split; vm_compute; reflexivity.
  - unfold Py.MAXORD, day0. lia.
Defined.

(** C1, as stated, fails after a first solve and twelve perfect reviews:
    the entry is well formed, the next interval would be
    [round(2389489 * 3.7)] days, which leads beyond the last day of the
    calendar, and the thirteenth review raises [OverflowError] and records
    nothing. *)
Lemma record_review_success_counterexample :
  run twelve_reviews [] = [(P1, twelve)] /\
  record_review day0 P1 5 [(P1, twelve)] = (Raise OverflowError, [(P1, twelve)]) /\
  reps twelve = 12.
Proof. repeat split; vm_compute; reflexivity. Qed.

(** C2.  For an entry in the collection and a quality from 0 to 2,
    [record_review] sets the repetitions to 0 and the interval to 3,
    whatever the entry held before, and [next_review] to today plus three
    days. *)
Theorem record_review_lapse today db pid e q :
  clock_ok today ->
  lookup pid db = Some e ->
  0 <= q < 3 ->
  exists e',
    record_review today pid q db = (Ok tt, store pid e' db) /\
    lookup pid (store pid e' db) = Some e' /\
    reps e' = 0 /\
    interval e' = 3 /\
    next_review e' = Some (today + 3).
Proof.
  intros C L Hq.
  assert (Hq' : 0 <= q <= 5) by lia.
  apply quality_in_range in Hq'.
  rewrite record_review_eq, L, Hq'.
  destruct (reviewed_lapse today e q C Hq) as (e' & -> & H).
  exists e'. split; [reflexivity|]. split; [apply lookup_store_same|exact H].
Qed.

Lemma record_review_lapse_witness :
  exists e',
    record_review (day0 + 10) P1 1 [(P1, once)] =
      (Ok tt, store P1 e' [(P1, once)]) /\
    lookup P1 (store P1 e' [(P1, once)]) = Some e' /\
    reps e' = 0 /\
    interval e' = 3 /\
    next_review e' = Some (day0 + 10 + 3).
Proof.
  apply (record_review_lapse (day0 + 10) [(P1, once)] P1 once 1).
  - unfold clock_ok, Py.MINORD, Py.MAXORD, day0. lia.
  - reflexivity.
  - lia.
Defined.

(** C3 (as amended).  For an entry in the collection and a quality [q]
    from 0 to 5, the ease factor
    [round(max(1.3, ef + (0.1 - (5 - q) * (0.08 + (5 - q) * 0.02))), 3)],
    with [ef] the ease factor before the review, is at least 1.3, and it is
    the ease factor of the entry whenever [record_review] completes.  On a
    day thirty days or more before the last of the calendar, the call
    completes for every quality below 3, and for a quality from 3 on it
    completes exactly when the new interval exists, 10 when the new count
    of repetitions is 1 and [max(1, round(prev_interval * ef))] otherwise,
    and the day that many days ahead is a date of the calendar. *)
Theorem record_review_ease today db pid e q :
  lookup pid db = Some e ->
  0 <= q <= 5 ->
  exists d,
    Py.float_of_int (5 - q) = Ok d /\
    let ef' :=
      Py.round3 (Py.max 1.3 (ef e + (0.1 - d * (0.08 + d * 0.02)))%float) in
    (1.3 <=? ef')%float = true /\
    (forall db', record_review today pid q db = (Ok tt, db') ->
       exists e', db' = store pid e' db /\
                  lookup pid db' = Some e' /\ ef e' = ef') /\
    (clock_ok today -> q < 3 ->
       fst (record_review today pid q db) = Ok tt) /\
    (clock_ok today -> 3 <= q ->
       (fst (record_review today pid q db) = Ok tt <->
        exists n,
          (reps e + 1 = 1 /\ n = 10 \/
           reps e + 1 <> 1 /\
           exists p r, Py.float_of_int (interval e) = Ok p /\
                       Py.round (p * ef e) = Ok r /\ n = Z.max 1 r) /\
          today + n <= Py.MAXORD)).
Proof.
  intros L Hq.
  destruct (float_of_quality q Hq) as [d Hd].
  exists d. split; [exact Hd|]. cbv zeta.
  split; [apply round3_floor, max_13_ge|]. split; [|split].
  - intros db'. rewrite record_review_eq, L.
    apply quality_in_range in Hq. rewrite Hq.
    unfold reviewed, rbind. rewrite Hd.
    destruct (next_schedule e q) as [[r i]|]; [|discriminate].
    cbn [fst snd]. destruct (Py.date_add today i); [|discriminate].
    intros [= <-]. eexists. split; [reflexivity|].
    split; [apply lookup_store_same|reflexivity].
  - intros C Hlt. rewrite record_review_eq, L.
    apply quality_in_range in Hq. rewrite Hq.
    destruct (reviewed_lapse today e q C ltac:(lia)) as (e' & -> & _).
    reflexivity.
  - intros C Hge. rewrite <- (reviewed_graded today e q C ltac:(lia)).
    rewrite record_review_eq, L.
    apply quality_in_range in Hq. rewrite Hq.
    destruct (reviewed today e q) as [e'|x]; cbn [fst].
    + split; [eauto|reflexivity].
    + split; [discriminate|]. intros [e' H]. discriminate.
Qed.

(** The review of quality 5 that follows [once] on its due day completes:
    the new count of repetitions is 2, the interval [round(10 * 2.6)] is
    26 and the ease factor 2.7. *)
Lemma record_review_ease_witness :
  exists d,
    Py.float_of_int (5 - 5) = Ok d /\
    let ef' :=
      Py.round3 (Py.max 1.3 (ef once + (0.1 - d * (0.08 + d * 0.02)))%float) in
    (1.3 <=? ef')%float = true /\
    (forall db', record_review (day0 + 10) P1 5 [(P1, once)] = (Ok tt, db') ->
       exists e', db' = store P1 e' [(P1, once)] /\
                  lookup P1 db' = Some e' /\ ef e' = ef') /\
    (clock_ok (day0 + 10) -> 5 < 3 ->
       fst (record_review (day0 + 10) P1 5 [(P1, once)]) = Ok tt) /\
    (clock_ok (day0 + 10) -> 3 <= 5 ->
       (fst (record_review (day0 + 10) P1 5 [(P1, once)]) = Ok tt <->
        exists n,
          (reps once + 1 = 1 /\ n = 10 \/
           reps once + 1 <> 1 /\
           exists p r, Py.float_of_int (interval once) = Ok p /\
                       Py.round (p * ef once) = Ok r /\ n = Z.max 1 r) /\
          day0 + 10 + n <= Py.MAXORD)).
Proof.
  apply (record_review_ease (day0 + 10) [(P1, once)] P1 once 5).
  - reflexivity.
  - lia.
Defined.

(** That review, evaluated. *)
Example record_review_perfect :
  record_review (day0 + 10) P1 5 [(P1, once)] =
    (Ok tt,
     [(P1, {| id := P1; difficulty := 3; ef := 2.7; reps := 2; interval := 26;
              last_review := Some (day0 + 10);
              next_review := Some (day0 + 36); notes := EmptyString |})]).
Proof. vm_compute. reflexivity. Qed.

(** C3, as stated, fails on the entry that twelve perfect reviews leave: a
    review of quality 3 raises [OverflowError] on the new review date, and
    the ease factor stays 3.7 where the formula gives 3.56. *)
Lemma record_review_ease_counterexample :
  run twelve_reviews [] = [(P1, twelve)] /\
  record_review day0 P1 3 [(P1, twelve)] = (Raise OverflowError, [(P1, twelve)]) /\
  ef twelve = 3.7%float /\
  Py.round3 (Py.max 1.3 (3.7 + (0.1 - 2 * (0.08 + 2 * 0.02)))%float) = 3.56%float.
Proof. repeat split; vm_compute; reflexivity. Qed.

(** C4.  [record_review] raises [KeyError] exactly when the identifier is
    not in the collection, and [ValueError] exactly when it is there and the
    quality is outside 0..5 (the "only when" for collections whose entries
    satisfy the invariants of the data model); whenever it raises, the
    collection is left as it was. *)
Theorem record_review_errors today db pid q :
  (fst (record_review today pid q db) = Raise KeyError <->
     lookup pid db = None) /\
  (lookup pid db <> None /\ ~ 0 <= q <= 5 ->
     fst (record_review today pid q db) = Raise ValueError) /\
  (db_ok db ->
     fst (record_review today pid q db) = Raise ValueError ->
     lookup pid db <> None /\ ~ 0 <= q <= 5) /\
  (forall x, fst (record_review today pid q db) = Raise x ->
     snd (record_review today pid q db) = db).
Proof.
  rewrite record_review_eq.
  destruct (lookup pid db) as [e|] eqn:L.
  - assert (P : Some e <> None) by discriminate.
    destruct ((0 <=? q) && (q <=? 5)) eqn:R.
    + apply quality_in_range in R.
      pose proof (reviewed_raises today e q) as X.
      pose proof (reviewed_raises_any today e q) as Y.
      destruct (reviewed today e q) as [e'|x]; cbn [fst snd].
      * split; [split; intros; discriminate|].
        split; [tauto|]. split; intros; discriminate.
      * split.
        { split; [|intros; discriminate]. intros [= ->].
          destruct (Y KeyError eq_refl); discriminate. }
        split; [tauto|]. split; [|reflexivity].
        intros Hdb [= ->].
        specialize (X ValueError (Hdb _ _ L) R eq_refl). discriminate.
    + assert (~ 0 <= q <= 5).
      { intros H. apply quality_in_range in H. congruence. }
      cbn [fst snd].
      split; [split; intros; discriminate|]. repeat split; auto.
  - cbn [fst snd].
    split; [split; reflexivity|].
    split; [tauto|]. split; [intros; discriminate|reflexivity].
Qed.

Lemma record_review_errors_witness :
  (fst (record_review day0 P1 6 [(P1, fresh)]) = Raise KeyError <->
     lookup P1 [(P1, fresh)] = None) /\
  (lookup P1 [(P1, fresh)] <> None /\ ~ 0 <= 6 <= 5 ->
     fst (record_review day0 P1 6 [(P1, fresh)]) = Raise ValueError) /\
  (db_ok [(P1, fresh)] ->
     fst (record_review day0 P1 6 [(P1, fresh)]) = Raise ValueError ->
     lookup P1 [(P1, fresh)] <> None /\ ~ 0 <= 6 <= 5) /\
  (forall x, fst (record_review day0 P1 6 [(P1, fresh)]) = Raise x ->
     snd (record_review day0 P1 6 [(P1, fresh)]) = [(P1, fresh)]).
Proof.
  exact (record_review_errors day0 [(P1, fresh)] P1 6).
Defined.

(** C10.  [record_review] looks the identifier up before it checks the
    quality: on an identifier that is not in the collection it raises
    [KeyError] whatever the quality, also one outside 0..5. *)
Theorem record_review_unknown_id today db pid q :
  lookup pid db = None ->
  record_review today pid q db = (Raise KeyError, db).
Proof. intros L. now rewrite record_review_eq, L. Qed.

Lemma record_review_unknown_id_witness :
  record_review day0 "P2" 6 [(P1, fresh)] = (Raise KeyError, [(P1, fresh)]).
Proof. apply record_review_unknown_id. reflexivity. Defined.

(** ** First solves *)

(** C5 (as amended).  For an identifier that is not in the collection and
    a difficulty [diff] whose offset [diff - 3] converts to a float,
    [add_solved] appends an entry with ease factor
    [max(1.3, 2.5 - 0.05 * (diff - 3))], no repetitions, an interval of 3, no
    [last_review], [next_review] three days from today and the notes given;
    with difficulty 3 the ease factor is 2.5. *)
Theorem add_solved_new today db pid diff new_notes d :
  clock_ok today ->
  lookup pid db = None ->
  Py.float_of_int (diff - 3) = Ok d ->
  add_solved today pid diff new_notes db =
    (Ok tt,
     db ++ [(pid, {| id := pid;
                     difficulty := diff;
                     ef := Py.max 1.3 (2.5 - 0.05 * d)%float;
                     reps := 0;
                     interval := 3;
                     last_review := None;
                     next_review := Some (today + 3);
                     notes := new_notes |})]) /\
  (diff = 3 -> Py.max 1.3 (2.5 - 0.05 * d)%float = 2.5%float).
Proof.
  intros C L Hd. split.
  - rewrite add_solved_eq, L. unfold created, rbind.
    rewrite Hd, (date_add_clock today 3 C) by lia.
    now rewrite store_absent.
  - intros ->. injection Hd as <-. vm_compute. reflexivity.
Qed.

Lemma add_solved_new_witness :
  add_solved day0 P1 3 EmptyString [] =
    (Ok tt,
     [] ++ [(P1, {| id := P1;
                    difficulty := 3;
                    ef := Py.max 1.3 (2.5 - 0.05 * 0)%float;
                    reps := 0;
                    interval := 3;
                    last_review := None;
                    next_review := Some (day0 + 3);
                    notes := EmptyString |})]) /\
  (3 = 3 -> Py.max 1.3 (2.5 - 0.05 * 0)%float = 2.5%float).
Proof.
  apply (add_solved_new day0 [] P1 3 EmptyString 0%float).
  - unfold clock_ok, Py.MINORD, Py.MAXORD, day0. lia.
  - reflexivity.
  - vm_compute. reflexivity.
Defined.

(** C5, as stated, fails on a difficulty whose offset from 3 is [2^1024]:
    the conversion of the offset to a float raises [OverflowError] and
    nothing is inserted. *)
Lemma add_solved_new_counterexample :
  add_solved day0 P1 (2 ^ 1024 + 3) EmptyString [] = (Raise OverflowError, []).
Proof. vm_compute. reflexivity. Qed.




(** ** The due list *)

Lemma insert_by_perm {A : Type} (key : A -> Z * Z) x l :
  Permutation (insert_by key x l) (x :: l).
Proof.
  induction l as [|y rest IH]; cbn [insert_by]; auto.
  destruct (tuple_ltb (key y) (key x)); auto.
  rewrite IH. apply perm_swap.
Qed.

Lemma sort_by_perm {A : Type} (key : A -> Z * Z) l :
  Permutation (sort_by key l) l.
Proof.
  induction l as [|x rest IH]; cbn [sort_by fold_right]; auto.
  fold (sort_by key rest). rewrite insert_by_perm. now constructor.
Qed.

Lemma tuple_ltb_false a b :
  tuple_ltb b a = false <->
  fst a < fst b \/ (fst a = fst b /\ snd a <= snd b).
Proof.
  unfold tuple_ltb. rewrite orb_false_iff, andb_false_iff.
  rewrite Z.ltb_ge, Z.eqb_neq, Z.ltb_ge. lia.
Qed.

Lemma key_le_trans {A : Type} (key : A -> Z * Z) a b c :
  key_le key a b -> key_le key b c -> key_le key a c.
Proof. unfold key_le. rewrite !tuple_ltb_false. lia. Qed.

Lemma insert_by_sorted {A : Type} (key : A -> Z * Z) x l :
  StronglySorted (key_le key) l ->
  StronglySorted (key_le key) (insert_by key x l).
Proof.
  induction 1 as [|y rest Hs IH Hy]; cbn [insert_by].
  - constructor; constructor.
  - destruct (tuple_ltb (key y) (key x)) eqn:E.
    + constructor; auto.
      assert (Hxy : key_le key y x).
      { unfold key_le. apply tuple_ltb_false.
        unfold tuple_ltb in E. apply orb_true_iff in E.
        rewrite andb_true_iff, !Z.ltb_lt, Z.eqb_eq in E. lia. }
      eapply Permutation_Forall; [symmetry; apply insert_by_perm|].
      constructor; auto.
    + constructor; [constructor; auto|].
      constructor; [exact E|].
      eapply Forall_impl; [|exact Hy].
      intros z Hz. eapply key_le_trans; eauto.
Qed.

Lemma sort_by_sorted {A : Type} (key : A -> Z * Z) l :
  StronglySorted (key_le key) (sort_by key l).
Proof.
  induction l as [|x rest IH]; cbn [sort_by fold_right]; [constructor|].
  now apply insert_by_sorted.
Qed.

Lemma sorted_weaken {A : Type} (R S : A -> A -> Prop) l :
  (forall a b, R a b -> S a b) -> StronglySorted R l -> StronglySorted S l.
Proof.
  intros H. induction 1 as [|x rest Hs IH Hx]; constructor; auto.
  eapply Forall_impl; [|exact Hx]. auto.
Qed.

(** C7.  [get_due] returns exactly the entries of the collection whose
    [next_review] is missing or not after the reference date, each as often
    as the collection holds it, in ascending order of [next_review] with a
    missing one counted as the reference date, and in descending order of
    difficulty among entries of the same date. *)
Theorem get_due_sorted d db :
  Permutation (get_due d db)
    (filter (on_next_review true (fun nr => nr <=? d)) (map snd db)) /\
  (forall p, In p (get_due d db) <->
     (exists pid, In (pid, p) db) /\
     (next_review p = None \/
      exists nr, next_review p = Some nr /\ nr <= d)) /\
  StronglySorted (due_order d) (get_due d db).
Proof.
  assert (P : Permutation (get_due d db)
                (filter (on_next_review true (fun nr => nr <=? d)) (map snd db))).
  { unfold get_due. rewrite sort_by_perm. unfold values.
    rewrite (filter_ext (is_due d)
               (on_next_review true (fun nr => nr <=? d))); [reflexivity|].
    intros p. reflexivity. }
  split; [exact P|]. split.
  - intros p. etransitivity.
    { split; apply Permutation_in; [|symmetry]; exact P. }
    rewrite filter_In, in_map_iff. unfold on_next_review.
    assert (K : (exists x : string * entry, snd x = p /\ In x db) <->
                (exists pid, In (pid, p) db)).
    { split.
      - intros [[k x] [E I]]. cbn in E. subst x. eauto.
      - intros [k I]. exists (k, p). auto. }
    rewrite K. destruct (next_review p) as [nr|].
    + rewrite Z.leb_le. split.
      * intros [H1 H2]. split; auto. right. exists nr. auto.
      * intros [H1 [H2|(nr' & [= <-] & H2)]]; [discriminate|auto].
    + split; intros [H1 H2]; auto.
  - unfold get_due. eapply sorted_weaken; [|apply sort_by_sorted].
    intros a b H. unfold key_le in H. apply tuple_ltb_false in H.
    unfold due_order, review_date. unfold due_key in *.
    cbn [fst snd] in *. lia.
Qed.

(** On [shelf] the due list of [day0 + 4] leaves [P1] out and holds the
    overdue [P3], then [P4] and [P2], which count as due today, the harder
    first. *)
Example get_due_shelf :
  get_due (day0 + 4) shelf = [overdue_entry; harder; undated].
Proof. vm_compute. reflexivity. Qed.

(** ** The study plan *)

Lemma count_if_cons f x l :
  count_if f (x :: l) = (if f x then 1 else 0) + count_if f l.
Proof.
  unfold count_if. cbn [filter]. destruct (f x); cbn [List.length]; lia.
Qed.

Lemma tally_all d0 l : forall c,
  fold_left (tally d0 (d0 + 1) (d0 + 7) (d0 + 30)) l c =
  {| overdue :=
       overdue c + count_if (on_next_review false (fun nr => nr <? d0)) l;
     due_today :=
       due_today c + count_if (on_next_review true (fun nr => nr <=? d0)) l;
     due_tomorrow :=
       due_tomorrow c +
       count_if (on_next_review false (fun nr => nr =? d0 + 1)) l;
     next_7_days :=
       next_7_days c +
       count_if (on_next_review false
                   (fun nr => (d0 + 1 <? nr) && (nr <=? d0 + 7))) l;
     next_30_days :=
       next_30_days c +
       count_if (on_next_review false
                   (fun nr => (d0 + 7 <? nr) && (nr <=? d0 + 30))) l;
     total := total c + Z.of_nat (List.length l) |}.
Proof.
  induction l as [|p rest IH]; intros c.
  - destruct c. cbn. f_equal; lia.
  - cbn [fold_left]. rewrite IH. rewrite !count_if_cons.
    unfold tally, on_next_review.
    destruct (next_review p) as [nr|]; cbn [List.length];
      rewrite Nat2Z.inj_succ; compare_cases;
      cbn [andb overdue due_today due_tomorrow next_7_days next_30_days total];
      f_equal; lia.
Qed.



(** ** The schedule over a session *)

Lemma last_done_scheduled pid calls : forall db seen,
  (forall e, lookup pid db = Some e -> scheduled_by e seen) ->
  forall e, lookup pid (run calls db) = Some e ->
            scheduled_by e (last_done pid calls db seen).
Proof.
  induction calls as [|[day c] rest IH]; intros db seen Hinv e;
    cbn [run last_done]; [apply Hinv|].
  pose proof (exec_outcome day c db) as X.
  destruct (exec day c db) as [[u|x] db']; cbn [snd].
  - destruct X as (e' & -> & Hs). apply IH. intros e0 L0.
    destruct (String.eqb_spec pid (call_pid c)) as [->|Hne].
    + rewrite lookup_store_same in L0. now injection L0 as <-.
    + rewrite lookup_store_other in L0 by assumption. auto.
  - subst db'. apply IH, Hinv.
Qed.

(** C9 (as amended).  After any sequence of [add_solved] and
    [record_review] calls on an empty collection, every entry has
    [next_review] equal to the day of the last call that completed on it
    plus its interval; that day is its [last_review] when the call was
    [record_review], and its interval is 3 when the call was
    [add_solved]. *)
Theorem schedule_invariant calls pid e :
  lookup pid (run calls []) = Some e ->
  scheduled_by e (last_done pid calls [] None).
Proof.
  apply last_done_scheduled. intros e0 H. discriminate.
Qed.

Lemma schedule_invariant_witness :
  scheduled_by again (last_done P1 solved_again [] None).
Proof.
  apply (schedule_invariant solved_again P1 again).
  vm_compute. reflexivity.
Defined.

(** C9, as stated, fails after a solve, a review the same day and a second
    solve five days later: [last_review] is still the day of the review,
    the interval is 3, and [next_review] is three days after the second
    solve, eight days after [last_review]. *)
Lemma schedule_invariant_counterexample :
  lookup P1 (run solved_again []) = Some again /\
  last_review again = Some day0 /\
  interval again = 3 /\
  next_review again = Some (day0 + 8) /\
  next_review again <> Some (day0 + interval again).
Proof.
  repeat split; try (vm_compute; reflexivity).
  vm_compute. discriminate.
Qed.

(** * Further properties of the code *)

(** ** What one call stores *)

Lemma next_schedule_inv e q r i :
  next_schedule e q = Ok (r, i) ->
  r = (if q <? 3 then 0 else reps e + 1) /\ 1 <= i.
Proof.
  unfold next_schedule, rbind. destruct (q <? 3); [intros [= <- <-]; lia|].
  destruct (reps e + 1 =? 1); [intros [= <- <-]; lia|].
  destruct (Py.float_of_int (interval e)) as [p|]; [|discriminate].
  destruct (Py.round (p * ef e)) as [x|]; [|discriminate].
  intros [= <- <-]. lia.
Qed.

(** The entry a completed call stores, field by field. *)
Lemma exec_stores day c db u db' :
  exec day c db = (Ok u, db') ->
  exists e',
    db' = store (call_pid c) e' db /\
    1 <= interval e' /\
    match c with
    | Review p q =>
        exists e,
          lookup p db = Some e /\
          reps e' = (if q <? 3 then 0 else reps e + 1) /\
          last_review e' = Some day /\
          id e' = id e /\ difficulty e' = difficulty e /\ notes e' = notes e
    | Add p diff n =>
        reps e' = 0 /\ difficulty e' = diff /\
        match lookup p db with
        | Some e => last_review e' = last_review e /\ id e' = id e
        | None => last_review e' = None /\ id e' = p /\ notes e' = n
        end
    end.
Proof.
  destruct c as [pid diff n|pid q]; cbn [exec call_pid].
  - rewrite add_solved_eq.
    destruct (lookup pid db) as [e|]; unfold reset, created, rbind;
      (destruct (Py.float_of_int (diff - 3)); [|discriminate]);
      (destruct (Py.date_add day 3); [|discriminate]);
      intros [= <- <-]; eexists; (split; [reflexivity|]); cbn;
      repeat split; try reflexivity; lia.
  - rewrite record_review_eq.
    destruct (lookup pid db) as [e|]; [|discriminate].
    destruct ((0 <=? q) && (q <=? 5)); [|discriminate].
    unfold reviewed, rbind.
    destruct (next_schedule e q) as [[r i]|] eqn:N; [|discriminate].
    destruct (next_schedule_inv e q r i N) as [-> Hi].
    destruct (Py.float_of_int (5 - q)); [|discriminate].
    cbn [fst snd]. destruct (Py.date_add day i); [|discriminate].
    intros [= <- <-]. eexists. split; [reflexivity|]. cbn.
    split; [exact Hi|]. exists e. repeat split; reflexivity.
Qed.

Lemma exec_raises day c db x db' : exec day c db = (Raise x, db') -> db' = db.
Proof.
  intros H. pose proof (exec_outcome day c db) as X. now rewrite H in X.
Qed.

Lemma lookup_In pid e db : lookup pid db = Some e -> In e (values db).
Proof.
  induction db as [|[k old] rest IH]; cbn; [discriminate|].
  destruct (String.eqb pid k); [intros [= ->]; auto|auto].
Qed.

Lemma run_NoDup calls : forall db,
  NoDup (map fst db) -> NoDup (map fst (run calls db)).
Proof.
  induction calls as [|[day c] rest IH]; intros db H; cbn [run]; auto.
  apply IH. pose proof (exec_outcome day c db) as X.
  destruct (exec day c db) as [[u|x] db']; cbn [snd].
  - destruct X as (e' & -> & _). now apply store_NoDup.
  - now subst db'.
Qed.

Lemma run_ids calls : forall db,
  (forall pid e, lookup pid db = Some e -> id e = pid) ->
  forall pid e, lookup pid (run calls db) = Some e -> id e = pid.
Proof.
  induction calls as [|[day c] rest IH]; intros db H; cbn [run]; auto.
  apply IH. intros pid e L.
  destruct (exec day c db) as [[u|x] db'] eqn:E; cbn [snd] in L.
  - destruct (exec_stores _ _ _ _ _ E) as (e' & -> & _ & S).
    destruct (String.eqb_spec pid (call_pid c)) as [->|Hne].
    + rewrite lookup_store_same in L. injection L as <-.
      destruct c as [p diff n|p q]; cbn [call_pid] in *.
      * destruct S as (_ & _ & S).
        destruct (lookup p db) as [e0|] eqn:L0.
        -- destruct S as [_ ->]. eauto.
        -- tauto.
      * destruct S as (e0 & L0 & _ & _ & -> & _). eauto.
    + rewrite lookup_store_other in L by assumption. eauto.
  - apply exec_raises in E. subst db'. eauto.
Qed.

(** X1.  Every call keeps the invariants of the data model: after any
    sequence of [add_solved] and [record_review] calls on an empty
    collection, every entry has an ease factor of at least 1.3, an interval
    of at least one day and a repetition count that is not negative. *)
Theorem session_keeps_data_model calls pid e :
  lookup pid (run calls []) = Some e ->
  (1.3 <=? ef e)%float = true /\ 1 <= interval e /\ 0 <= reps e.
Proof.
  intros L. exact (run_db_ok calls [] db_ok_nil pid e L).
Qed.

Lemma session_keeps_data_model_witness :
  (1.3 <=? ef twelve)%float = true /\ 1 <= interval twelve /\ 0 <= reps twelve.
Proof.
  apply (session_keeps_data_model twelve_reviews P1 twelve).
  vm_compute. reflexivity.
Defined.

(** X2.  After any sequence of calls on an empty collection the
    identifiers of the collection are distinct, and every entry carries the
    identifier under which it is stored. *)
Theorem session_keys calls :
  NoDup (map fst (run calls [])) /\
  (forall pid e, lookup pid (run calls []) = Some e -> id e = pid).
Proof.
  split.
  - apply run_NoDup. constructor.
  - apply run_ids. intros pid e H. discriminate.
Qed.

(** X3.  A call touches no entry but the one of its identifier: whether it
    completes or raises, every other identifier is bound as before. *)
Theorem exec_frame day c db pid :
  pid <> call_pid c ->
  lookup pid (snd (exec day c db)) = lookup pid db.
Proof.
  intros Hne. pose proof (exec_outcome day c db) as X.
  destruct (exec day c db) as [[u|x] db']; cbn [snd].
  - destruct X as (e' & -> & _). now apply lookup_store_other.
  - now subst db'.
Qed.

Lemma exec_frame_witness :
  lookup P1 (snd (exec day0 (Add "P2" 4 "graphs") [(P1, once)])) =
  lookup P1 [(P1, once)].
Proof.
  apply (exec_frame day0 (Add "P2" 4 "graphs") [(P1, once)] P1).
  discriminate.
Defined.

(** ** Solving *)

(** X4.  [add_solved] raises nothing but [OverflowError], and then leaves
    the collection as it was; with the clock on a date of the calendar it
    completes exactly when the offset of the difficulty from 3 converts to
    a float, so it never fails on an identifier, known or not. *)
Theorem add_solved_errors today pid diff new_notes db :
  (forall x, fst (add_solved today pid diff new_notes db) = Raise x ->
     x = OverflowError /\ snd (add_solved today pid diff new_notes db) = db) /\
  (clock_ok today ->
     (fst (add_solved today pid diff new_notes db) = Ok tt <->
      exists d, Py.float_of_int (diff - 3) = Ok d)).
Proof.
  rewrite add_solved_eq. split.
  - intros x.
    destruct (lookup pid db) as [e|]; unfold reset, created, rbind;
      (destruct (Py.float_of_int (diff - 3)) as [d|y] eqn:F;
         [|cbn [fst snd]; intros [= <-]; split; auto;
           eapply float_of_int_raises; eauto]);
      (destruct (Py.date_add today 3) as [nr|y] eqn:D;
         [discriminate|cbn [fst snd]; intros [= <-]; split; auto;
           eapply date_add_raises; eauto]).
  - intros C.
    destruct (lookup pid db) as [e|]; unfold reset, created, rbind;
      rewrite (date_add_clock today 3 C) by lia;
      (destruct (Py.float_of_int (diff - 3)) as [d|y]; cbn [fst];
         [split; eauto|split; [discriminate|intros [d H]; discriminate]]).
Qed.

Lemma add_solved_errors_witness :
  (forall x, fst (add_solved day0 P1 5 "again" [(P1, once)]) = Raise x ->
     x = OverflowError /\
     snd (add_solved day0 P1 5 "again" [(P1, once)]) = [(P1, once)]) /\
  (clock_ok day0 ->
     (fst (add_solved day0 P1 5 "again" [(P1, once)]) = Ok tt <->
      exists d, Py.float_of_int (5 - 3) = Ok d)).
Proof.
  exact (add_solved_errors day0 P1 5 "again" [(P1, once)]).
Defined.

(** X5.  [add_solved] adds at most one identifier and never moves one: on
    an identifier of the collection the identifiers stay as they are, in
    their order; on a new one, when the call completes, the new identifier
    comes last. *)
Theorem add_solved_keys today pid diff new_notes db :
  (lookup pid db <> None ->
     map fst (snd (add_solved today pid diff new_notes db)) = map fst db) /\
  (lookup pid db = None ->
     fst (add_solved today pid diff new_notes db) = Ok tt ->
     map fst (snd (add_solved today pid diff new_notes db)) =
       map fst db ++ [pid]).
Proof.
  rewrite add_solved_eq.
  destruct (lookup pid db) as [e|] eqn:L; split; try congruence.
  - intros _. destruct (reset today e diff new_notes); cbn [snd]; auto.
    eapply store_keys; eauto.
  - intros _. destruct (created today pid diff new_notes); cbn [fst snd];
      [|discriminate].
    intros _. now apply store_keys_absent.
Qed.

Lemma add_solved_keys_witness :
  (lookup "P2" [(P1, once)] <> None ->
     map fst (snd (add_solved day0 "P2" 4 "graphs" [(P1, once)])) =
       map fst [(P1, once)]) /\
  (lookup "P2" [(P1, once)] = None ->
     fst (add_solved day0 "P2" 4 "graphs" [(P1, once)]) = Ok tt ->
     map fst (snd (add_solved day0 "P2" 4 "graphs" [(P1, once)])) =
       map fst [(P1, once)] ++ ["P2"%string]).
Proof.
  exact (add_solved_keys day0 "P2" 4 "graphs" [(P1, once)]).
Defined.

(** ** Reviewing *)

(** X6.  [record_review] never adds, removes or moves an identifier, and
    it never changes the identifier, the difficulty or the notes of the
    entry it reviews. *)
Theorem record_review_keeps today pid q db :
  map fst (snd (record_review today pid q db)) = map fst db /\
  (forall e e',
     lookup pid db = Some e ->
     lookup pid (snd (record_review today pid q db)) = Some e' ->
     id e' = id e /\ difficulty e' = difficulty e /\ notes e' = notes e).
Proof.
  pose proof (exec_stores today (Review pid q) db) as S.
  pose proof (exec_raises today (Review pid q) db) as R.
  cbn [exec call_pid] in S, R.
  destruct (record_review today pid q db) as [[u|x] db']; cbn [snd].
  - destruct (S u db' eq_refl) as (e' & -> & _ & e & L & _ & _ & Hi & Hd & Hn).
    split; [eapply store_keys; eauto|].
    intros e0 e1 L0 L1. rewrite lookup_store_same in L1.
    injection L1 as <-. rewrite L in L0. injection L0 as <-. auto.
  - rewrite (R x db' eq_refl). split; auto.
    intros e e' L L'. rewrite L in L'. injection L' as <-. auto.
Qed.

(** X7.  The first successful review after a solve or after a lapse gives
    an interval of ten days: when an [add_solved] or a review of quality
    below 3 has completed on an identifier, a review of quality 3 to 5 of
    that identifier completes, with one repetition, an interval of 10 and
    [next_review] ten days ahead, whatever the entry held before. *)
Theorem first_success_after_reset d1 c1 db db1 d2 q2 :
  exec d1 c1 db = (Ok tt, db1) ->
  match c1 with
  | Add _ _ _ => True
  | Review _ q1 => q1 < 3
  end ->
  clock_ok d2 ->
  3 <= q2 <= 5 ->
  exists e2,
    record_review d2 (call_pid c1) q2 db1 =
      (Ok tt, store (call_pid c1) e2 db1) /\
    reps e2 = 1 /\ interval e2 = 10 /\
    last_review e2 = Some d2 /\ next_review e2 = Some (d2 + 10).
Proof.
  intros E Hc C Hq.
  destruct (exec_stores _ _ _ _ _ E) as (e1 & -> & _ & S).
  assert (R : reps e1 = 0).
  { destruct c1 as [p diff n|p q1].
    - tauto.
    - destruct S as (e & _ & R & _). rewrite R.
      apply Z.ltb_lt in Hc. now rewrite Hc. }
  assert (Hq' : 0 <= q2 <= 5) by lia.
  destruct (float_of_quality q2 Hq') as [d Hd].
  apply quality_in_range in Hq'.
  rewrite record_review_eq, lookup_store_same, Hq'.
  assert (Q : (q2 <? 3) = false) by (apply Z.ltb_ge; lia).
  unfold reviewed, next_schedule, rbind. rewrite Q, R. cbn [Z.add Z.eqb Pos.eqb].
  rewrite Hd. cbn [fst snd].
  rewrite (date_add_clock d2 10 C) by lia.
  eexists. split; [reflexivity|]. cbn. auto.
Qed.

Lemma first_success_after_reset_witness :
  exists e2,
    record_review (day0 + 10) P1 4
        (snd (exec (day0 + 5) (Review P1 1) [(P1, once)])) =
      (Ok tt, store P1 e2 (snd (exec (day0 + 5) (Review P1 1) [(P1, once)]))) /\
    reps e2 = 1 /\ interval e2 = 10 /\
    last_review e2 = Some (day0 + 10) /\
    next_review e2 = Some (day0 + 10 + 10).
Proof.
  apply (first_success_after_reset (day0 + 5) (Review P1 1) [(P1, once)]
           (snd (exec (day0 + 5) (Review P1 1) [(P1, once)])) (day0 + 10) 4).
  - vm_compute. reflexivity.
  - simpl. lia.
  - unfold clock_ok, Py.MINORD, Py.MAXORD, day0. lia.
  - lia.
Defined.

(** ** The due list and the plan *)

Lemma get_due_In d db p :
  In p (get_due d db) <-> In p (values db) /\ is_due d p = true.
Proof.
  unfold get_due. rewrite <- filter_In.
  split; apply Permutation_in; [|symmetry]; apply sort_by_perm.
Qed.

(** X8.  An entry that was just solved or reviewed is due from its
    [next_review] on and not before: after a call completes on [day], its
    entry has an interval of at least one day and is in the due list of a
    date exactly when that date is [day] plus the interval or later; so it
    is not due on [day] itself. *)
Theorem due_after_interval day c db db' :
  exec day c db = (Ok tt, db') ->
  exists e',
    lookup (call_pid c) db' = Some e' /\
    1 <= interval e' /\
    (forall d, In e' (get_due d db') <-> day + interval e' <= d) /\
    ~ In e' (get_due day db').
Proof.
  intros E. pose proof (exec_outcome day c db) as X. rewrite E in X.
  destruct X as (e' & Hs & (day' & c' & [= <- <-] & N & _)).
  destruct (exec_stores _ _ _ _ _ E) as (e'' & Hs' & Hi & _).
  assert (L : lookup (call_pid c) db' = Some e')
    by (rewrite Hs; apply lookup_store_same).
  assert (e'' = e').
  { rewrite Hs', lookup_store_same in L. now injection L. }
  subst e''.
  assert (G : forall d, In e' (get_due d db') <-> day + interval e' <= d).
  { intros d. rewrite get_due_In. unfold is_due. rewrite N, Z.leb_le.
    split; [tauto|]. intros H. split; auto. eapply lookup_In; eauto. }
  exists e'. repeat split; auto; try apply G.
  rewrite G. lia.
Qed.

Lemma due_after_interval_witness :
  exists e',
    lookup (call_pid (Add P1 3 EmptyString))
      (snd (exec day0 (Add P1 3 EmptyString) [])) = Some e' /\
    1 <= interval e' /\
    (forall d, In e' (get_due d (snd (exec day0 (Add P1 3 EmptyString) []))) <->
               day0 + interval e' <= d) /\
    ~ In e' (get_due day0 (snd (exec day0 (Add P1 3 EmptyString) []))).
Proof.
  apply (due_after_interval day0 (Add P1 3 EmptyString) []).
  vm_compute. reflexivity.
Defined.

(** X9.  An entry that is due stays due: the due list of a date holds
    every entry of the due list of an earlier date. *)
Theorem get_due_grows d d' db p :
  d <= d' -> In p (get_due d db) -> In p (get_due d' db).
Proof.
  intros Hd. rewrite !get_due_In. unfold is_due.
  destruct (next_review p) as [nr|]; auto.
  rewrite !Z.leb_le. intros [H1 H2]. split; auto. lia.
Qed.

Lemma get_due_grows_witness :
  In fresh (get_due (day0 + 9) [(P1, fresh)]).
Proof.
  apply (get_due_grows (day0 + 3) (day0 + 9) [(P1, fresh)] fresh).
  - lia.
  - vm_compute. auto.
Defined.

Lemma filter_insert_by {A : Type} (key : A -> Z * Z) k x l :
  filter (fun y => tuple_eqb (key y) k) (insert_by key x l) =
  filter (fun y => tuple_eqb (key y) k) (x :: l).
Proof.
  induction l as [|y rest IH]; cbn [insert_by]; auto.
  destruct (tuple_ltb (key y) (key x)) eqn:E; auto.
  cbn [filter] in *. rewrite IH.
  destruct (tuple_eqb (key x) k) eqn:Ex; auto.
  destruct (tuple_eqb (key y) k) eqn:Ey; auto.
  exfalso. unfold tuple_eqb, tuple_ltb in *.
  apply andb_true_iff in Ex, Ey. rewrite !Z.eqb_eq in Ex, Ey.
  apply orb_true_iff in E. rewrite andb_true_iff, !Z.ltb_lt, Z.eqb_eq in E.
  lia.
Qed.

Lemma filter_sort_by {A : Type} (key : A -> Z * Z) k l :
  filter (fun y => tuple_eqb (key y) k) (sort_by key l) =
  filter (fun y => tuple_eqb (key y) k) l.
Proof.
  induction l as [|x rest IH]; auto.
  cbn [sort_by fold_right]. fold (sort_by key rest).
  rewrite filter_insert_by. cbn [filter]. now rewrite IH.
Qed.

(** X10.  The sort of [get_due] is stable: the due entries that have the
    same review date and the same difficulty come in the order in which
    the collection holds them. *)
Theorem get_due_stable d db k :
  filter (fun p => tuple_eqb (due_key d p) k) (get_due d db) =
  filter (fun p => tuple_eqb (due_key d p) k)
    (filter (is_due d) (values db)).
Proof. apply filter_sort_by. Qed.

Lemma count_if_length f l : 0 <= count_if f l <= Z.of_nat (List.length l).
Proof.
  unfold count_if. pose proof (filter_length_le f l). lia.
Qed.

Lemma count_if_ext f g l :
  (forall x, f x = g x) -> count_if f l = count_if g l.
Proof.
  intros H. unfold count_if. now rewrite (filter_ext f g H).
Qed.

Lemma count_if_le f g l :
  (forall x, f x = true -> g x = true) -> count_if f l <= count_if g l.
Proof.
  intros H. induction l as [|x rest IH]; [reflexivity|].
  rewrite !count_if_cons. specialize (H x).
  destruct (f x); destruct (g x); try lia;
    specialize (H eq_refl); discriminate.
Qed.

Lemma plan_of today db :
  clock_ok today ->
  study_plan_summary today db =
    Ok (fold_left (tally today (today + 1) (today + 7) (today + 30))
          (values db)
          {| overdue := 0; due_today := 0; due_tomorrow := 0;
             next_7_days := 0; next_30_days := 0; total := 0 |}).
Proof.
  intros C. unfold study_plan_summary, rbind.
  now rewrite !(date_add_clock today _ C) by lia.
Qed.

(** X11.  The plan and the due list agree: [due_today] is the length of
    the due list of the same date, and [overdue <= due_today <= total]. *)
Theorem plan_due_today today db :
  clock_ok today ->
  exists c,
    study_plan_summary today db = Ok c /\
    due_today c = Z.of_nat (List.length (get_due today db)) /\
    0 <= overdue c <= due_today c /\
    due_today c <= total c.
Proof.
  intros C. rewrite (plan_of today db C), tally_all.
  eexists. split; [reflexivity|]. cbn [overdue due_today total].
  split; [|split].
  - unfold get_due. rewrite (Permutation_length (sort_by_perm _ _)).
    rewrite Z.add_0_l. apply count_if_ext.
    intros p. reflexivity.
  - pose proof (count_if_length
                  (on_next_review false (fun nr => nr <? today)) (values db)).
    split; [lia|]. apply Z.add_le_mono_l, count_if_le.
    intros p. unfold on_next_review. destruct (next_review p); auto.
    rewrite Z.ltb_lt, Z.leb_le. lia.
  - pose proof (count_if_length
                  (on_next_review true (fun nr => nr <=? today)) (values db)).
    lia.
Qed.

Lemma plan_due_today_witness :
  exists c,
    study_plan_summary (day0 + 4) [(P1, fresh)] = Ok c /\
    due_today c = Z.of_nat (List.length (get_due (day0 + 4) [(P1, fresh)])) /\
    0 <= overdue c <= due_today c /\
    due_today c <= total c.
Proof.
  apply (plan_due_today (day0 + 4) [(P1, fresh)]).
  unfold clock_ok, Py.MINORD, Py.MAXORD, day0. lia.
Defined.




(** ** Sessions *)

Lemma run_history pid calls : forall db n o,
  (forall e, lookup pid db = Some e -> reps e = n /\ last_review e = o) ->
  (lookup pid db = None -> o = None) ->
  forall e, lookup pid (run calls db) = Some e ->
    reps e = fold_left (streak_step pid) (completed calls db) n /\
    last_review e = fold_left (review_day_step pid) (completed calls db) o.
Proof.
  induction calls as [|[day c] rest IH]; intros db n o Hin Hno;
    cbn [run completed]; [exact Hin|].
  destruct (exec day c db) as [[u|x] db'] eqn:E; cbn [snd fold_left].
  - destruct (exec_stores _ _ _ _ _ E) as (e' & -> & _ & S).
    destruct (String.eqb_spec pid (call_pid c)) as [->|Hne].
    + apply IH; [|rewrite lookup_store_same; discriminate].
      intros e L. rewrite lookup_store_same in L. injection L as <-.
      unfold streak_step, review_day_step.
      destruct c as [p diff nn|p q]; cbn [snd fst call_pid] in *;
        rewrite String.eqb_refl.
      * destruct S as (R & _ & S). split; auto.
        destruct (lookup p db) as [e0|].
        -- destruct S as [-> _]. now apply Hin.
        -- destruct S as [-> _]. symmetry. now apply Hno.
      * destruct S as (e0 & L0 & R & Lr & _). split; auto.
        rewrite R. destruct (Hin e0 L0) as [-> _]. reflexivity.
    + assert (Sn : streak_step pid n (day, c) = n /\
                   review_day_step pid o (day, c) = o).
      { apply String.eqb_neq in Hne. unfold streak_step, review_day_step.
        destruct c; cbn [snd call_pid] in *; rewrite ?Hne; auto. }
      destruct Sn as [-> ->].
      apply IH; rewrite lookup_store_other by assumption; auto.
  - apply exec_raises in E. subst db'. now apply IH.
Qed.

(** X13.  The repetition count is the number of successful reviews in a
    row: after any sequence of calls on an empty collection, [reps] of an
    entry is the number of completed reviews of quality 3 or more of its
    identifier since the last completed [add_solved] or review of quality
    below 3 of that identifier. *)
Theorem reps_is_streak calls pid e :
  lookup pid (run calls []) = Some e ->
  reps e = streak pid (completed calls []).
Proof.
  intros L. apply (run_history pid calls [] 0 None); auto.
  intros e0 H. discriminate.
Qed.

Lemma reps_is_streak_witness :
  reps twelve = streak P1 (completed twelve_reviews []).
Proof.
  apply (reps_is_streak twelve_reviews P1 twelve).
  vm_compute. reflexivity.
Defined.

(** X14.  [last_review] is the day of the last review that completed:
    after any sequence of calls on an empty collection, [last_review] of an
    entry is the day of the last completed [record_review] of its
    identifier, and it is missing exactly when there was none;
    [add_solved] never sets or clears it. *)
Theorem last_review_is_review_day calls pid e :
  lookup pid (run calls []) = Some e ->
  last_review e = review_day pid (completed calls []).
Proof.
  intros L. apply (run_history pid calls [] 0 None); auto.
  intros e0 H. discriminate.
Qed.

Lemma last_review_is_review_day_witness :
  last_review again = review_day P1 (completed solved_again []).
Proof.
  apply (last_review_is_review_day solved_again P1 again).
  vm_compute. reflexivity.
Defined.

(** X15.  A call that raises leaves no trace: a sequence of calls ends in
    the collection that its completed calls alone end in, and all of those
    complete again when run without the others. *)
Theorem run_completed calls : forall db,
  run calls db = run (completed calls db) db /\
  completed (completed calls db) db = completed calls db.
Proof.
  induction calls as [|[day c] rest IH]; intros db; cbn [run completed];
    [auto|].
  destruct (exec day c db) as [[u|x] db'] eqn:E; cbn [snd].
  - cbn [run completed]. rewrite E. cbn [snd].
    destruct (IH db') as [-> ->]. auto.
  - apply exec_raises in E. subst db'. apply IH.
Qed.

(** ** The listing of the summary *)

Lemma insert_on_perm {A : Type} (key : A -> Z) x l :
  Permutation (insert_on key x l) (x :: l).
Proof.
  induction l as [|y rest IH]; cbn [insert_on]; auto.
  destruct (key y <? key x); auto.
  rewrite IH. apply perm_swap.
Qed.

Lemma sort_on_perm {A : Type} (key : A -> Z) l :
  Permutation (sort_on key l) l.
Proof.
  induction l as [|x rest IH]; cbn [sort_on fold_right]; auto.
  fold (sort_on key rest). rewrite insert_on_perm. now constructor.
Qed.

Lemma insert_on_sorted {A : Type} (key : A -> Z) x l :
  StronglySorted (fun a b => key a <= key b) l ->
  StronglySorted (fun a b => key a <= key b) (insert_on key x l).
Proof.
  induction 1 as [|y rest Hs IH Hy]; cbn [insert_on].
  - constructor; constructor.
  - destruct (Z.ltb_spec (key y) (key x)) as [L|L].
    + constructor; auto.
      eapply Permutation_Forall; [symmetry; apply insert_on_perm|].
      constructor; auto. lia.
    + constructor; [constructor; auto|].
      constructor; [exact L|].
      eapply Forall_impl; [|exact Hy]. cbv beta. intros z Hz. lia.
Qed.

Lemma sort_on_sorted {A : Type} (key : A -> Z) l :
  StronglySorted (fun a b => key a <= key b) (sort_on key l).
Proof.
  induction l as [|x rest IH]; cbn [sort_on fold_right]; [constructor|].
  now apply insert_on_sorted.
Qed.

Lemma filter_perm {A : Type} (f : A -> bool) l l' :
  Permutation l l' -> Permutation (filter f l) (filter f l').
Proof.
  induction 1 as [|x l l' H IH|x y l|l l' l'' H1 IH1 H2 IH2]; cbn [filter].
  - constructor.
  - destruct (f x); auto.
  - destruct (f x); destruct (f y); auto. apply perm_swap.
  - etransitivity; eauto.
Qed.

Lemma sorted_split {A : Type} (key : A -> Z) d l :
  StronglySorted (fun a b => key a <= key b) l ->
  l = filter (fun p => key p <=? d) l ++
      filter (fun p => negb (key p <=? d)) l.
Proof.
  induction 1 as [|x rest Hs IH Hx]; [reflexivity|]. cbn [filter].
  destruct (Z.leb_spec (key x) d) as [L|L]; cbn [negb app].
  - now rewrite <- IH.
  - assert (E : filter (fun p => key p <=? d) rest = []).
    { clear IH Hs. induction rest as [|y r IHr]; [reflexivity|].
      inversion Hx; subst. cbn [filter].
      destruct (Z.leb_spec (key y) d); [lia|auto]. }
    rewrite E in *. cbn [app] in *. now rewrite <- IH.
Qed.

Lemma is_due_key d p : is_due d p = (listing_key d p <=? d).
Proof.
  unfold is_due, listing_key. destruct (next_review p); auto.
  symmetry. apply Z.leb_refl.
Qed.

Lemma filter_insert_on {A : Type} (key : A -> Z) k x l :
  filter (fun p => key p =? k) (insert_on key x l) =
  filter (fun p => key p =? k) (x :: l).
Proof.
  induction l as [|y rest IH]; cbn [insert_on]; [reflexivity|].
  destruct (Z.ltb_spec (key y) (key x)) as [L|L]; [|reflexivity].
  cbn [filter] in *. rewrite IH.
  destruct (Z.eqb_spec (key y) k) as [Ey|Ey];
    destruct (Z.eqb_spec (key x) k) as [Ex|Ex]; try reflexivity; lia.
Qed.

Lemma filter_sort_on {A : Type} (key : A -> Z) k l :
  filter (fun p => key p =? k) (sort_on key l) =
  filter (fun p => key p =? k) l.
Proof.
  induction l as [|x rest IH]; cbn [sort_on fold_right]; [reflexivity|].
  fold (sort_on key rest). rewrite filter_insert_on.
  cbn [filter]. now rewrite IH.
Qed.

(** X16.  [summary] shows the plan of [study_plan_summary] and lists every
    entry of the collection once, in ascending order of [next_review], a
    missing one counted as today, and entries of the same date in the order
    of the collection. *)
Theorem summary_listing d db plan l :
  summary d db = Ok (plan, l) ->
  study_plan_summary d db = Ok plan /\
  Permutation l (map snd db) /\
  StronglySorted (fun a b => review_date d a <= review_date d b) l /\
  (forall k, filter (fun p => review_date d p =? k) l =
             filter (fun p => review_date d p =? k) (map snd db)).
Proof.
  unfold summary, rbind.
  destruct (study_plan_summary d db) as [c|]; [|discriminate].
  intros [= <- <-]. split; auto. split; [|split].
  - apply sort_on_perm.
  - apply (sort_on_sorted (listing_key d)).
  - intros k. apply (filter_sort_on (listing_key d)).
Qed.

(** On [shelf] the listing of [day0 + 4] starts with the overdue [P3],
    goes on with [P2] and [P4], which count as due today, in the order of
    the collection, and ends with [P1]. *)
Lemma summary_listing_witness :
  study_plan_summary (day0 + 4) shelf =
    Ok {| overdue := 1; due_today := 3; due_tomorrow := 0;
          next_7_days := 0; next_30_days := 0; total := 4 |} /\
  Permutation [overdue_entry; undated; harder; twelve] (map snd shelf) /\
  StronglySorted
    (fun a b => review_date (day0 + 4) a <= review_date (day0 + 4) b)
    [overdue_entry; undated; harder; twelve] /\
  (forall k,
     filter (fun p => review_date (day0 + 4) p =? k)
       [overdue_entry; undated; harder; twelve] =
     filter (fun p => review_date (day0 + 4) p =? k) (map snd shelf)).
Proof.
  apply (summary_listing (day0 + 4) shelf).
  vm_compute. reflexivity.
Defined.

(** X17.  [summary] lists the due entries first: its listing is the
    entries that are due today, which are those of the due list, followed
    by the entries that are not. *)
Theorem summary_due_first d db plan l :
  summary d db = Ok (plan, l) ->
  l = filter (is_due d) l ++ filter (fun p => negb (is_due d p)) l /\
  Permutation (filter (is_due d) l) (get_due d db).
Proof.
  unfold summary, rbind.
  destruct (study_plan_summary d db) as [c|]; [|discriminate].
  intros [= <- <-]. split.
  - rewrite (filter_ext (is_due d) _ (is_due_key d)).
    rewrite (filter_ext (fun p => negb (is_due d p))
               (fun p => negb (listing_key d p <=? d))
               (fun p => f_equal negb (is_due_key d p))).
    apply sorted_split, sort_on_sorted.
  - unfold get_due. rewrite sort_by_perm.
    apply filter_perm, sort_on_perm.
Qed.

(** On [shelf] the three due entries come before [P1], which is not due;
    the due list holds the same three, the harder [P4] before [P2]. *)
Lemma summary_due_first_witness :
  [overdue_entry; undated; harder; twelve] =
    filter (is_due (day0 + 4)) [overdue_entry; undated; harder; twelve] ++
    filter (fun p => negb (is_due (day0 + 4) p))
      [overdue_entry; undated; harder; twelve] /\
  Permutation
    (filter (is_due (day0 + 4)) [overdue_entry; undated; harder; twelve])
    (get_due (day0 + 4) shelf).
Proof.
  apply (summary_due_first (day0 + 4) shelf
           {| overdue := 1; due_today := 3; due_tomorrow := 0;
              next_7_days := 0; next_30_days := 0; total := 4 |}).
  vm_compute. reflexivity.
Defined.

(** The two parts of the listing of [shelf], evaluated. *)
Example summary_shelf :
  summary (day0 + 4) shelf =
    Ok ({| overdue := 1; due_today := 3; due_tomorrow := 0;
           next_7_days := 0; next_30_days := 0; total := 4 |},
        [overdue_entry; undated; harder; twelve]) /\
  filter (is_due (day0 + 4)) [overdue_entry; undated; harder; twelve] =
    [overdue_entry; undated; harder] /\
  filter (fun p => negb (is_due (day0 + 4) p))
    [overdue_entry; undated; harder; twelve] = [twelve].
Proof. repeat split; vm_compute; reflexivity. Qed.
